(** * UniEats backend: the identity-provider-backed session flow

    A shallow embedding of [server.js] (the cross-origin version, with the
    Postgres-backed verify callback) and of [db.js], together with the
    properties of the authentication flow stated in the specification.

    Layout:
    - [Js]          the JavaScript values the profile and the rows carry;
    - [Pg]          the [users] table behind [db.query];
    - [Async]       [async] functions as trees of awaited queries, run alone
                    or interleaved at their awaits;
    - [Server]      the verify callback and the (de)serializers;
    - [Middleware]  express-session and Passport as the routes rely on them;
    - [Routes]      the route handlers;
    - [Props]       the vocabulary of the properties;
    - [Pages]       the remaining routes and the vocabulary of their
                    properties;
    - the properties: the verify callback as lookup-or-create-or-update
      (C1, C3, C5, C8, C9), missing identifiers (C4), the race of two
      first-time resolutions (C2), and the session side (C6, C7, C10);
    - further properties: the callback and the deserializer on their own
      (X1 to X7), the table over many resolutions (X8, X9, X18), the routes
      (X10 to X16, X19) and two resolutions for different subjects (X17). *)

From stdpp Require Import base option list gmap strings.
From Stdlib Require Import ZArith Lia Ascii.

Local Open Scope string_scope.
Local Open Scope list_scope.
Local Open Scope Z_scope.

(* ===================================================================== *)
(** ** JavaScript values *)
(* ===================================================================== *)

Module Js.

(** The values the fields of the profile and the text columns of a row
    take: missing ([undefined]), [null], or a string (the identity's subject
    id, email and display name are strings). *)
Inductive jsval : Type :=
| JUndefined
| JNull
| JStr (s : string).

#[global] Instance jsval_eq_dec : EqDecision jsval.
Proof. solve_decision. Defined.

(** ToBoolean: [undefined], [null] and the empty string are falsy. *)
Definition truthy (v : jsval) : bool :=
  match v with
  | JStr s => negb (String.eqb s "")
  | _ => false
  end.

(** [a || b] *)
Definition js_or (a b : jsval) : jsval := if truthy a then a else b.

(** [a === b] on this universe of values. *)
Definition strict_eq (a b : jsval) : bool := bool_decide (a = b).

(** [a !== b] *)
Definition strict_ne (a b : jsval) : bool := negb (strict_eq a b).

End Js.
Export Js.

Infix "|||" := js_or (at level 50, left associativity).

(* ===================================================================== *)
(** ** The users table behind [db.query] *)
(* ===================================================================== *)

Module Pg.

(** A row of [users] as [pg] returns it for [SELECT *] / [RETURNING *]. *)
Record user_row : Type := mkRow {
  row_id : Z;
  row_azure_oid : jsval;
  row_email : jsval;
  row_name : jsval;
  row_role : jsval;
  row_created_at : Z;
  row_updated_at : Z
}.

#[global] Instance user_row_eq_dec : EqDecision user_row.
Proof. solve_decision. Defined.

(** The four statements [server.js] sends, with their parameters. *)
Inductive query : Type :=
| SelectByOid (azureOid : jsval)
    (* SELECT * FROM users WHERE azure_oid = $1 *)
| InsertUser (azureOid email name : jsval)
    (* INSERT INTO users (azure_oid, email, name) VALUES ($1, $2, $3) RETURNING * *)
| UpdateUser (name email : jsval) (id : Z)
    (* UPDATE users SET name = $1, email = $2, updated_at = NOW() WHERE id = $3 RETURNING * *)
| SelectById (id : Z).
    (* SELECT * FROM users WHERE id = $1 *)

#[global] Instance query_eq_dec : EqDecision query.
Proof. solve_decision. Defined.

(** What an [await] can throw, and the one error the callback builds itself. *)
Inductive error : Type :=
| MissingIdentifiers   (* new Error('Authentication profile is missing required identifiers.') *)
| DbUnreachable        (* the pool cannot reach the server *)
| DbUniqueViolation.   (* duplicate key on users.azure_oid *)

#[global] Instance error_eq_dec : EqDecision error.
Proof. solve_decision. Defined.

(** A settled [db.query] promise: rejected with an error, or resolved with
    a result whose [rows] are kept. *)
Definition qresult : Type := error + list user_row.

(** Modelled from the spec: the table definition is not part of the
    sources.  The spec gives a [users] table keyed by a unique external
    subject id, with email, display name, role and timestamps; whether the
    uniqueness constraint is declared is kept as a switch so that each
    property states whether it relies on it. *)
Record schema : Type := mkSchema {
  oid_unique : bool;
  default_role : jsval
}.

(** The directory: table contents, the id sequence, the server clock read by
    [NOW()], the outcome of the coming connection attempts ([true] = the
    query is rejected because the store cannot be reached; exhausted = all
    succeed), and the journal of statements sent, newest first, each with
    the error it was rejected with, if any. *)
Record db : Type := mkDb {
  users : list user_row;
  next_id : Z;
  clock : Z;
  outages : list bool;
  qlog : list (query * option error);
  cfg : schema
}.

(** [pg] sends [undefined] as NULL. *)
Definition pg_param (v : jsval) : jsval :=
  match v with
  | JUndefined => JNull
  | _ => v
  end.

(** SQL [=] on text: NULL never compares equal. *)
Definition sql_eq (a b : jsval) : bool :=
  match a, b with
  | JStr x, JStr y => String.eqb x y
  | _, _ => false
  end.

Definition has_oid (o : jsval) (r : user_row) : bool := sql_eq (row_azure_oid r) o.
Definition has_id (i : Z) (r : user_row) : bool := Z.eqb (row_id r) i.

Definition set_profile (n e : jsval) (t : Z) (r : user_row) : user_row :=
  mkRow (row_id r) (row_azure_oid r) (pg_param e) (pg_param n) (row_role r)
        (row_created_at r) t.

Definition new_row (d : db) (o e n : jsval) : user_row :=
  mkRow (next_id d) (pg_param o) (pg_param e) (pg_param n)
        (default_role (cfg d)) (clock d) (clock d).

(** Modelled from the spec: the effect of each statement on the [users]
    table, whose definition is not part of the sources.  An insert draws
    the next value of the id sequence (also when it is then rejected) and
    stamps both timestamps; the insert is rejected on a duplicate subject
    id when the constraint is declared.  Rows are listed in insertion
    order, which the statements do not ask for: a property that reads the
    first row of a lookup is stated where the lookup finds at most one
    row, or on that first row. *)
Definition apply_query (q : query) (d : db) : qresult * db :=
  match q with
  | SelectByOid o =>
      (inr (List.filter (has_oid o) (users d)),
       mkDb (users d) (next_id d) (clock d) (outages d) ((q, None) :: qlog d) (cfg d))
  | SelectById i =>
      (inr (List.filter (has_id i) (users d)),
       mkDb (users d) (next_id d) (clock d) (outages d) ((q, None) :: qlog d) (cfg d))
  | InsertUser o e n =>
      if oid_unique (cfg d) && existsb (has_oid o) (users d) then
        (inl DbUniqueViolation,
         mkDb (users d) (next_id d + 1) (clock d) (outages d)
              ((q, Some DbUniqueViolation) :: qlog d) (cfg d))
      else
        let r := new_row d o e n in
        (inr [r],
         mkDb (users d ++ [r]) (next_id d + 1) (clock d) (outages d) ((q, None) :: qlog d) (cfg d))
  | UpdateUser n e i =>
      let upd r := if has_id i r then set_profile n e (clock d) r else r in
      let users' := List.map upd (users d) in
      (inr (List.filter (has_id i) users'),
       mkDb users' (next_id d) (clock d) (outages d) ((q, None) :: qlog d) (cfg d))
  end.

(** [db.query(text, params)]: [pool.query], which rejects when the store is
    unreachable and otherwise runs the statement. *)
Definition db_query (q : query) (d : db) : qresult * db :=
  match outages d with
  | true :: rest =>
      (inl DbUnreachable,
       mkDb (users d) (next_id d) (clock d) rest
            ((q, Some DbUnreachable) :: qlog d) (cfg d))
  | false :: rest =>
      apply_query q (mkDb (users d) (next_id d) (clock d) rest (qlog d) (cfg d))
  | [] => apply_query q d
  end.

(** Time passing between two requests. *)
Definition advance (dt : Z) (d : db) : db :=
  mkDb (users d) (next_id d) (clock d + dt) (outages d) (qlog d) (cfg d).

End Pg.
Export Pg.

(* ===================================================================== *)
(** ** Async functions *)
(* ===================================================================== *)

Module Async.

(** The body of an [async] function whose only awaits are [db.query]
    calls: it returns, throws, or is suspended on a query with what it does
    once the promise settles. *)
Inductive prog (A : Type) : Type :=
| Ret (a : A)
| Throw (e : error)
| Await (q : query) (k : qresult → prog A).

Arguments Ret {A} a.
Arguments Throw {A} e.
Arguments Await {A} q k.

Fixpoint bind {A B} (p : prog A) (f : A → prog B) : prog B :=
  match p with
  | Ret a => f a
  | Throw e => Throw e
  | Await q k => Await q (λ r, bind (k r) f)
  end.

#[global] Instance prog_ret : MRet prog := @Ret.
#[global] Instance prog_bind : MBind prog := λ A B f p, bind p f.

(** [await db.query(...)]: a rejection is thrown at the await. *)
Definition await (q : query) : prog (list user_row) :=
  Await q (λ r, match r with inl e => Throw e | inr rows => Ret rows end).

(** [try { p } catch (err) { h err }] *)
Fixpoint try_catch {A} (p : prog A) (h : error → prog A) : prog A :=
  match p with
  | Ret a => Ret a
  | Throw e => h e
  | Await q k => Await q (λ r, try_catch (k r) h)
  end.

(** Running a body to completion on its own. *)
Fixpoint run {A} (p : prog A) (d : db) : (error + A) * db :=
  match p with
  | Ret a => (inr a, d)
  | Throw e => (inl e, d)
  | Await q k => let '(r, d') := db_query q d in run (k r) d'
  end.

(** One turn of the event loop for a suspended body: its pending query
    settles and the body runs up to its next await. *)
Definition step {A} (p : prog A) (d : db) : prog A * db :=
  match p with
  | Await q k => let '(r, d') := db_query q d in (k r, d')
  | _ => (p, d)
  end.

(** Two requests in flight.  The schedule picks which body takes the next
    turn ([true] = the first); when it is exhausted the first body runs to
    completion, then the second. *)
Fixpoint interleave {A} (sched : list bool) (p1 p2 : prog A) (d : db)
  : ((error + A) * (error + A)) * db :=
  match sched with
  | [] =>
      let '(r1, d1) := run p1 d in
      let '(r2, d2) := run p2 d1 in
      ((r1, r2), d2)
  | true :: sched' =>
      let '(p1', d') := step p1 d in interleave sched' p1' p2 d'
  | false :: sched' =>
      let '(p2', d') := step p2 d in interleave sched' p1 p2' d'
  end.

End Async.
Export Async.

(* ===================================================================== *)
(** ** server.js *)
(* ===================================================================== *)

Module Server.

(** *** The provider profile *)

(** [profile._json]: the raw claims; only [email] is read. *)
Record json_claims : Type := mkClaims { claim_email : jsval }.

(** An entry of [profile.emails]; only [value] is read. *)
Record email_entry : Type := mkEntry { value : jsval }.

(** The profile passport-azure-ad hands to the verify callback.  [_json]
    and [emails] may be missing, which the optional chaining absorbs. *)
Record Profile : Type := mkProfile {
  oid : jsval;
  upn : jsval;
  _json : option json_claims;
  emails : option (list email_entry);
  displayName : jsval
}.

(** [profile._json?.email] *)
Definition json_email (profile : Profile) : jsval :=
  match _json profile with
  | Some j => claim_email j
  | None => JUndefined
  end.

(** [profile.emails?.[0]?.value] *)
Definition first_email (profile : Profile) : jsval :=
  match emails profile with
  | Some (e :: _) => value e
  | _ => JUndefined
  end.

(** *** The verify callback of the OIDC strategy *)

(** The arguments of a call [done(err, user)]; a falsy second argument
    ([null], [false], [undefined]) is [None]. *)
Record done_args : Type := done {
  done_err : option error;
  done_user : option user_row
}.

(** [const email = profile.upn || profile._json?.email || profile.emails?.[0]?.value] *)
Definition email_of (profile : Profile) : jsval :=
  upn profile ||| json_email profile ||| first_email profile.

(** [const name = profile.displayName || 'UniEats User'] *)
Definition name_of (profile : Profile) : jsval :=
  displayName profile ||| JStr "UniEats User".

(** [async (iss, sub, profile, done) => { ... }]; the value is the call to
    [done] the callback ends with. *)
Definition verify (profile : Profile) : prog done_args :=
  let azureOid := oid profile in
  let email := email_of profile in
  let name := name_of profile in
  if negb (truthy azureOid) || negb (truthy email) then
    Ret (done (Some MissingIdentifiers) None)
  else
    try_catch
      (userResult ← await (SelectByOid azureOid);
       let user := head userResult in
       match user with
       | None =>
           insertResult ← await (InsertUser azureOid email name);
           let user := head insertResult in
           Ret (done None user)
       | Some u =>
           if strict_ne (row_name u) name || strict_ne (row_email u) email then
             updateResult ← await (UpdateUser name email (row_id u));
             let user := head updateResult in
             Ret (done None user)
           else
             Ret (done None (Some u))
       end)
      (λ err, Ret (done (Some err) None)).

(** [passport.serializeUser((user, done) => done(null, user.id))] *)
Definition serializeUser (user : user_row) : Z := row_id user.

(** [passport.deserializeUser(async (id, done) => { ... })] *)
Definition deserializeUser (id : Z) : prog done_args :=
  try_catch
    (userResult ← await (SelectById id);
     let user := head userResult in
     Ret (done None user))                 (* done(null, user || false) *)
    (λ err, Ret (done (Some err) None)).

End Server.
Export Server.

(* ===================================================================== *)
(** ** The middleware the routes run behind *)
(* ===================================================================== *)

(** [app.use(session({...}))], [app.use(passport.initialize())] and
    [app.use(passport.session())] put express-session and Passport in
    front of every route, and the routes call [req.isAuthenticated],
    [req.logout] and [req.session.destroy].  These come from the two
    libraries, not from the repository; they are given here by what the
    libraries document: sessions kept by id with an expiry, the serialized
    user under [session.passport.user], and the three ways a strategy ends
    (error, failure, success). *)

Module Middleware.

(** What the session store keeps per session id: the expiry of its cookie
    and [session.passport.user], the serialized user. *)
Record session : Type := mkSession {
  expires : Z;
  passport_user : option Z
}.

(** [cookie.maxAge] of the session configuration, in milliseconds. *)
Definition maxAge : Z := 24 * 60 * 60 * 1000.

(** The process: the directory, the session store (the default in-memory
    store of express-session, keyed by session id) and the supply of
    session ids. *)
Record server : Type := mkServer {
  directory : db;
  store : gmap nat session;
  next_sid : nat
}.

(** The part of [req] the routes read. *)
Record request : Type := mkReq {
  sessionID : nat;
  req_session : option session;     (* [None] once destroyed *)
  req_user : option user_row
}.

Inductive location : Type :=
| Path (p : string)                 (* a path of this server *)
| Frontend                          (* process.env.FRONTEND_URL *)
| FrontendDashboard (sid : nat).    (* `${process.env.FRONTEND_URL}/dashboard?session=${req.sessionID}` *)

Inductive body : Type :=
| UserJson (success : bool) (id : Z) (name email role : jsval)
| MessageJson (success : bool) (message : string)
| Html (markup : string)
| ErrorPage (e : error).

Inductive response : Type :=
| Respond (status : Z) (b : body)
| Redirect (to : location).

(** [next(err)] with no error middleware installed: Express answers 500. *)
Definition next_error (e : error) : response := Respond 500 (ErrorPage e).

Definition with_directory (d : db) (s : server) : server :=
  mkServer d (store s) (next_sid s).

Definition with_store (m : gmap nat session) (s : server) : server :=
  mkServer (directory s) m (next_sid s).

Definition now (s : server) : Z := clock (directory s).

(** express-session: a request without a usable session gets a new one
    under a newly generated id. *)
Definition generate (s : server) : request * server :=
  (mkReq (next_sid s) (Some (mkSession (now s + maxAge) None)) None,
   mkServer (directory s) (store s) (S (next_sid s))).

(** express-session: the session named by the cookie is loaded if the store
    has it and it has not expired; an expired one is dropped. *)
Definition load_session (cookie : option nat) (s : server) : request * server :=
  match cookie with
  | Some sid =>
      match store s !! sid with
      | Some sess =>
          if expires sess <=? now s then generate (with_store (delete sid (store s)) s)
          else (mkReq sid (Some sess) None, s)
      | None => generate s
      end
  | None => generate s
  end.

(** express-session, when the response ends: the session, unless destroyed,
    is written back with its expiry renewed. *)
Definition end_response (r : request) (s : server) : server :=
  match req_session r with
  | Some sess =>
      with_store (<[sessionID r := mkSession (now s + maxAge) (passport_user sess)]> (store s)) s
  | None => s
  end.

(** [passport.session()]: a session that carries a serialized user is
    resolved through [deserializeUser]; an error goes to [next(err)], a
    falsy user clears the entry and the request goes on anonymous. *)
Definition passport_session (r : request) (s : server) : (error + request) * server :=
  match req_session r with
  | Some sess =>
      match passport_user sess with
      | Some su =>
          let '(res, d') := run (deserializeUser su) (directory s) in
          let s' := with_directory d' s in
          match res with
          | inl e => (inl e, s')
          | inr (done (Some e) _) => (inl e, s')
          | inr (done None None) =>
              (inr (mkReq (sessionID r) (Some (mkSession (expires sess) None)) None), s')
          | inr (done None (Some u)) =>
              (inr (mkReq (sessionID r) (Some sess) (Some u)), s')
          end
      | None => (inr r, s)
      end
  | None => (inr r, s)
  end.

(** [req.isAuthenticated()] *)
Definition isAuthenticated (r : request) : bool :=
  match req_user r with Some _ => true | None => false end.

(** [req.session.regenerate]: the current session is destroyed in the store
    and a new one started under a new id. *)
Definition regenerate (r : request) (s : server) : request * server :=
  let '(r', s') := generate (with_store (delete (sessionID r) (store s)) s) in
  (mkReq (sessionID r') (req_session r') (req_user r), s').

(** [req.login(user)]: the session is regenerated, the serialized user is
    put under [session.passport.user] and the session is saved. *)
Definition login (user : user_row) (r : request) (s : server) : request * server :=
  let '(r', s') := regenerate r s in
  let sess := mkSession (now s' + maxAge) (Some (serializeUser user)) in
  (mkReq (sessionID r') (Some sess) (Some user),
   with_store (<[sessionID r' := sess]> (store s')) s').

(** [req.logout(cb)]: the user is removed from the request and from the
    session, the session is saved and then regenerated. *)
Definition logout (r : request) (s : server) : request * server :=
  match req_session r with
  | Some sess =>
      let cleared := mkSession (expires sess) None in
      regenerate (mkReq (sessionID r) (Some cleared) None)
                 (with_store (<[sessionID r := cleared]> (store s)) s)
  | None => (mkReq (sessionID r) None None, s)
  end.

(** [req.session.destroy(cb)] *)
Definition session_destroy (r : request) (s : server) : request * server :=
  (mkReq (sessionID r) None (req_user r),
   with_store (delete (sessionID r) (store s)) s).

(** What reaches the strategy on the return route: the provider's answer
    was rejected by the handshake, or it was validated into a profile. *)
Inductive callback : Type :=
| IssuerRejected
| Validated (profile : Profile).

(** [passport.authenticate('azuread-openidconnect', { failureRedirect })]
    on the return route.  The strategy calls [verify] and acts on its
    [done] as Passport prescribes: [done(err)] reports an exception and
    goes to [next(err)]; [done(null, false)] is an authentication failure,
    answered with the failure redirect (as is a rejected handshake);
    [done(null, user)] logs the user in and lets the route go on. *)
Definition authenticate (failureRedirect : string) (c : callback)
    (r : request) (s : server) : (response + request) * server :=
  match c with
  | IssuerRejected => (inl (Redirect (Path failureRedirect)), s)
  | Validated profile =>
      let '(res, d') := run (verify profile) (directory s) in
      let s' := with_directory d' s in
      match res with
      | inl e => (inl (next_error e), s')
      | inr (done (Some e) _) => (inl (next_error e), s')
      | inr (done None None) => (inl (Redirect (Path failureRedirect)), s')
      | inr (done None (Some user)) =>
          let '(r', s'') := login user r s' in (inr r', s'')
      end
  end.

(** A route handler sees the request and may change the session state. *)
Definition handler : Type := request → server → response * request * server.

(** The stack every route sits behind: session, [passport.session()], the
    route, and the end-of-response hook of the session. *)
Definition serve (h : handler) (cookie : option nat) (s : server) : response * server :=
  let '(r, s1) := load_session cookie s in
  match passport_session r s1 with
  | (inl e, s2) => (next_error e, end_response r s2)
  | (inr r', s2) =>
      let '(resp, r'', s3) := h r' s2 in (resp, end_response r'' s3)
  end.

End Middleware.
Export Middleware.

(* ===================================================================== *)
(** ** The routes of server.js *)
(* ===================================================================== *)

Module Routes.

(** [app.post('/auth/openid/return', passport.authenticate(...), (req, res) => ...)] *)
Definition auth_openid_return (c : callback) : handler := λ r s,
  match authenticate "/login-failed" c r s with
  | (inl resp, s') => (resp, r, s')
  | (inr r', s') => (Redirect (FrontendDashboard (sessionID r')), r', s')
  end.

(** [app.get('/api/user', (req, res) => ...)] *)
Definition api_user : handler := λ r s,
  if isAuthenticated r then
    match req_user r with
    | Some user =>
        (Respond 200 (UserJson true (row_id user) (row_name user)
                               (row_email user) (row_role user)), r, s)
    | None => (Respond 401 (MessageJson false "Not authenticated"), r, s)
    end
  else
    (Respond 401 (MessageJson false "Not authenticated"), r, s).

(** [app.get('/logout', (req, res, next) => req.logout(err => ... req.session.destroy(...)))] *)
Definition logout_route : handler := λ r s,
  let '(r1, s1) := logout r s in
  let '(r2, s2) := session_destroy r1 s1 in
  (Redirect Frontend, r2, s2).

(** The double quote, for the link targets of the markup. *)
Definition dq : string := String "034"%char EmptyString.

(** [app.get('/login-failed', ...)] *)
Definition login_failed : handler := λ r s,
  (Respond 401
     (Html (String.append
              "<h1>Login Failed</h1><p>There was an error authenticating. Please check your terminal logs and Azure configuration.</p><a href="
              (String.append dq (String.append "/" (String.append dq ">Home</a>"))))),
   r, s).

End Routes.
Export Routes.

(* ===================================================================== *)
(** ** Vocabulary of the properties *)
(* ===================================================================== *)

Module Props.

(** The profile carries a usable subject id and a usable email. *)
Definition accepted (profile : Profile) : Prop :=
  truthy (oid profile) = true ∧ truthy (email_of profile) = true.

(** The store answers every coming query. *)
Definition reachable (d : db) : Prop := outages d = [].

(** No two records share an external subject id. *)
Definition oid_injective (d : db) : Prop := NoDup (List.map row_azure_oid (users d)).

(** No two records share an id (the primary key). *)
Definition id_injective (d : db) : Prop := NoDup (List.map row_id (users d)).

(** The records of the directory held for a subject id. *)
Definition records_of (o : jsval) (d : db) : list user_row :=
  List.filter (has_oid o) (users d).

(** [findById] *)
Definition findById (i : Z) (d : db) : option user_row :=
  head (List.filter (has_id i) (users d)).

(** The first usable value of a list of candidates, [undefined] if none. *)
Fixpoint first_usable (candidates : list jsval) : jsval :=
  match candidates with
  | [] => JUndefined
  | v :: rest => if truthy v then v else first_usable rest
  end.

(** [validate(sessionId)]: what the session and [passport.session()]
    middleware make of a request presenting the session id. *)
Definition validate (sid : nat) (s : server) : error + option user_row :=
  let '(r, s1) := load_session (Some sid) s in
  match passport_session r s1 with
  | (inl e, _) => inl e
  | (inr r', _) => inr (req_user r')
  end.

(** What the return route does once the strategy has a user: [req.login],
    then the redirect that carries the new session id. *)
Definition logged_in (user : user_row) : handler := λ r s,
  let '(r', s') := login user r s in
  (Redirect (FrontendDashboard (sessionID r')), r', s').

(** [establish(user)]: a request, with or without a session of its own,
    in which the user is logged in; the session id is the one the redirect
    carries. *)
Definition establish (user : user_row) (cookie : option nat) (s : server)
  : response * server :=
  serve (logged_in user) cookie s.

(** [destroy(sessionId)]: a request to the logout route presenting the
    session id. *)
Definition destroy (sid : nat) (s : server) : response * server :=
  serve logout_route (Some sid) s.

(** The session is in the store, has not expired and carries a user id
    that the directory resolves. *)
Definition valid_session (cookie : option nat) (s : server) (user : user_row) : Prop :=
  ∃ sid sess i,
    cookie = Some sid ∧ store s !! sid = Some sess ∧ now s < expires sess ∧
    passport_user sess = Some i ∧ findById i (directory s) = Some user.

(** The one case in which [passport.session()] stops a request: the
    session presented is in the store, has not expired and carries a user
    id, and the store cannot be reached for the lookup of that id. *)
Definition deserialize_rejected (cookie : option nat) (s : server) : Prop :=
  ∃ sid sess i rest,
    cookie = Some sid ∧ store s !! sid = Some sess ∧ now s < expires sess ∧
    passport_user sess = Some i ∧ outages (directory s) = true :: rest.

(** Id and subject id of every record, in table order. *)
Definition keys (d : db) : list (Z * jsval) :=
  List.map (λ r, (row_id r, row_azure_oid r)) (users d).

(** The rows of the table after [UPDATE ... WHERE id = i] at time [t]. *)
Definition updated (n e : jsval) (t i : Z) (l : list user_row) : list user_row :=
  List.map (λ r, if has_id i r then set_profile n e t r else r) l.

(** The ways a run of the verify callback on an accepted profile can go:
    which statements it sent, which of them was rejected, what it passed to
    [done] and what it left in the table. *)
Inductive outcome (profile : Profile) (d : db) : error + done_args → db → Prop :=
| lookup_rejected err d' :
    users d' = users d →
    qlog d' = (SelectByOid (oid profile), Some err) :: qlog d →
    outcome profile d (inr (done (Some err) None)) d'
| created r d' :
    records_of (oid profile) d = [] →
    r = mkRow (row_id r) (oid profile) (email_of profile) (name_of profile)
              (default_role (cfg d)) (clock d) (clock d) →
    users d' = users d ++ [r] →
    qlog d' = (InsertUser (oid profile) (email_of profile) (name_of profile), None)
                :: (SelectByOid (oid profile), None) :: qlog d →
    outcome profile d (inr (done None (Some r))) d'
| create_rejected err d' :
    records_of (oid profile) d = [] →
    users d' = users d →
    qlog d' = (InsertUser (oid profile) (email_of profile) (name_of profile), Some err)
                :: (SelectByOid (oid profile), None) :: qlog d →
    outcome profile d (inr (done (Some err) None)) d'
| refreshed u rest d' :
    records_of (oid profile) d = u :: rest →
    row_name u ≠ name_of profile ∨ row_email u ≠ email_of profile →
    users d' = updated (name_of profile) (email_of profile) (clock d) (row_id u) (users d) →
    qlog d' = (UpdateUser (name_of profile) (email_of profile) (row_id u), None)
                :: (SelectByOid (oid profile), None) :: qlog d →
    outcome profile d
      (inr (done None (head (List.filter (has_id (row_id u)) (users d'))))) d'
| refresh_rejected u rest err d' :
    records_of (oid profile) d = u :: rest →
    row_name u ≠ name_of profile ∨ row_email u ≠ email_of profile →
    users d' = users d →
    qlog d' = (UpdateUser (name_of profile) (email_of profile) (row_id u), Some err)
                :: (SelectByOid (oid profile), None) :: qlog d →
    outcome profile d (inr (done (Some err) None)) d'
| unchanged u rest d' :
    records_of (oid profile) d = u :: rest →
    row_name u = name_of profile → row_email u = email_of profile →
    users d' = users d →
    qlog d' = (SelectByOid (oid profile), None) :: qlog d →
    outcome profile d (inr (done None (Some u))) d'.

(** What is left of the callback after a write was sent: a rejection is
    passed to [done] as the error, a result as the user of its first row. *)
Definition finishes (k : qresult → prog done_args) : Prop :=
  (∀ err, k (inl err) = Ret (done (Some err) None)) ∧
  (∀ rows, k (inr rows) = Ret (done None (head rows))).

(** Where a run of the callback stands between two turns of the event
    loop, against the directory as it is now: not started; lookup found
    nothing, insert pending; lookup found a stale record, update pending;
    finished with a user; finished on a duplicate-key rejection. *)
Inductive phase (profile : Profile) (d : db) : prog done_args → Prop :=
| at_start :
    phase profile d (verify profile)
| at_insert k :
    finishes k →
    phase profile d
      (Await (InsertUser (oid profile) (email_of profile) (name_of profile)) k)
| at_update i k :
    finishes k →
    (∃ u, In u (users d) ∧ row_id u = i) →
    records_of (oid profile) d ≠ [] →
    phase profile d (Await (UpdateUser (name_of profile) (email_of profile) i) k)
| at_user user :
    records_of (oid profile) d ≠ [] →
    phase profile d (Ret (done None (Some user)))
| at_duplicate :
    records_of (oid profile) d ≠ [] →
    phase profile d (Ret (done (Some DbUniqueViolation) None)).

(** Nothing is ever removed: a subject id or an id present stays present. *)
Definition grows (o : jsval) (d d' : db) : Prop :=
  (records_of o d ≠ [] → records_of o d' ≠ []) ∧
  (∀ i, (∃ u, In u (users d) ∧ row_id u = i) → ∃ u, In u (users d') ∧ row_id u = i).

(** The standing conditions of the race: the store answers, the constraint
    is declared, and at most one record is held for the subject id. *)
Definition guarded (o : jsval) (d : db) : Prop :=
  reachable d ∧ oid_unique (cfg d) = true ∧ (length (records_of o d) ≤ 1)%nat.

(** The server some time later. *)
Definition later (dt : Z) (s : server) : server :=
  with_directory (advance dt (directory s)) s.

End Props.
Export Props.

(* ===================================================================== *)
(** ** Concrete states used by the examples *)
(* ===================================================================== *)

Module Samples.

Definition customers : schema := mkSchema true (JStr "customer").

Definition empty_db : db := mkDb [] 1 1000 [] [] customers.

Definition alice : Profile :=
  mkProfile (JStr "oid-alice") (JStr "alice@uni.edu") None None (JStr "Alice").

Definition alice_renamed : Profile :=
  mkProfile (JStr "oid-alice") (JStr "alice@uni.edu") None None (JStr "Alice A.").

Definition bob : Profile :=
  mkProfile (JStr "oid-bob") JUndefined (Some (mkClaims (JStr "bob@uni.edu"))) None JNull.

Definition no_oid : Profile :=
  mkProfile JUndefined (JStr "alice@uni.edu") None None (JStr "Alice").

Definition alice_row : user_row :=
  mkRow 1 (JStr "oid-alice") (JStr "alice@uni.edu") (JStr "Alice") (JStr "customer") 1000 1000.

Definition alice_db : db := mkDb [alice_row] 2 2000 [] [] customers.

Definition down_db : db := mkDb [alice_row] 2 2000 [true] [] customers.

(** The store answers the next query and is unreachable for the one after. *)
Definition flaky_db : db := mkDb [alice_row] 2 2000 [false; true] [] customers.

Definition empty_server : server := mkServer empty_db ∅ 0.

Definition alice_session : session := mkSession 90000 (Some 1).

Definition alice_server : server := mkServer alice_db {[ 7%nat := alice_session ]} 8.

Definition stale_server : server :=
  mkServer alice_db {[ 7%nat := mkSession 90000 (Some 5) ]} 8.

Definition down_server : server := mkServer down_db {[ 7%nat := alice_session ]} 8.

End Samples.
Export Samples.

(* ===================================================================== *)
(** ** The remaining routes and the vocabulary of their properties *)
(* ===================================================================== *)

Module Pages.




(** [app.get('/', (req, res) => ...)] *)
Definition root_route : handler := λ r s,
  (Respond 200
     (Html (String.append "<h1>Welcome to UniEats</h1><a href="
              (String.append dq
                 (String.append "/login" (String.append dq ">Login with Princeton</a>"))))),
   r, s).





(** A store that holds a second session besides the one of the samples. *)
Definition two_sessions : server :=
  mkServer alice_db
           (<[ 3%nat := mkSession 95000 (Some 1) ]> {[ 7%nat := alice_session ]}) 8.

(** A session whose user id matches no record, with the store down. *)
Definition stale_down_server : server :=
  mkServer down_db {[ 7%nat := mkSession 90000 (Some 5) ]} 8.

(** The ids of the table are below the next value of the id sequence. *)
Definition ids_below (d : db) : Prop :=
  ∀ r, In r (users d) → row_id r < next_id d.

(** The shape every table reached from an empty one has. *)
Definition well_formed (d : db) : Prop :=
  id_injective d ∧ ids_below d ∧ oid_injective d.

(** Every record has a usable subject id, email and name. *)
Definition complete (d : db) : Prop :=
  ∀ r, In r (users d) →
    truthy (row_azure_oid r) = true ∧ truthy (row_email r) = true ∧
    truthy (row_name r) = true.

(** The verify callback run for one identity after the other, each run
    some time after the one before. *)
Definition resolve_all (calls : list (Z * Profile)) (d : db) : db :=
  fold_left (λ d call, (run (verify call.2) (advance call.1 d)).2) calls d.

(** What the callback never rewrites in a record. *)
Definition stable (r : user_row) : Z * jsval * jsval * Z :=
  (row_id r, row_azure_oid r, row_role r, row_created_at r).

(** The session ids of the store are below the next id to be generated. *)
Definition sids_below (s : server) : Prop :=
  ∀ sid sess, store s !! sid = Some sess → (sid < next_sid s)%nat.

(** A statement that writes to the table. *)
Definition is_write (q : query) : bool :=
  match q with
  | InsertUser _ _ _ | UpdateUser _ _ _ => true
  | _ => false
  end.

(** Where a first-time run stands when no other run touches its subject
    id: not started or insert pending, with no record yet; or finished
    with the one record it created. *)
Inductive first_phase (profile : Profile) (d : db) : prog done_args → Prop :=
| first_start :
    records_of (oid profile) d = [] →
    first_phase profile d (verify profile)
| first_insert k :
    finishes k →
    records_of (oid profile) d = [] →
    first_phase profile d
      (Await (InsertUser (oid profile) (email_of profile) (name_of profile)) k)
| first_done user :
    records_of (oid profile) d = [user] →
    row_email user = email_of profile → row_name user = name_of profile →
    first_phase profile d (Ret (done None (Some user))).

End Pages.
Export Pages.

(* ===================================================================== *)
(** ** Basic facts *)
(* ===================================================================== *)

Lemma truthy_str v : truthy v = true → ∃ s, v = JStr s.
Proof. destruct v; simpl; try discriminate; eauto. Qed.

Lemma pg_param_truthy v : truthy v = true → pg_param v = v.
Proof. intros [s ->]%truthy_str. reflexivity. Qed.

Lemma name_of_truthy profile : truthy (name_of profile) = true.
Proof.
  unfold name_of, js_or. destruct (truthy (displayName profile)) eqn:E; [exact E | reflexivity].
Qed.

Lemma strict_ne_false a b : strict_ne a b = false ↔ a = b.
Proof.
  unfold strict_ne, strict_eq. rewrite negb_false_iff, bool_decide_eq_true. reflexivity.
Qed.

Lemma strict_ne_true a b : strict_ne a b = true ↔ a ≠ b.
Proof.
  unfold strict_ne, strict_eq. rewrite negb_true_iff, bool_decide_eq_false. reflexivity.
Qed.

Lemma sql_eq_refl s : sql_eq (JStr s) (JStr s) = true.
Proof. simpl. apply String.eqb_refl. Qed.

Lemma sql_eq_true a b : sql_eq a b = true → a = b.
Proof.
  destruct a, b; simpl; try discriminate. intros H%String.eqb_eq. congruence.
Qed.

Lemma filter_nil_existsb {A} (f : A → bool) l :
  List.filter f l = [] → existsb f l = false.
Proof.
  induction l as [|x l IH]; simpl; [reflexivity|].
  destruct (f x); [discriminate | exact IH].
Qed.

Lemma db_query_reachable q d :
  reachable d → db_query q d = apply_query q d.
Proof. unfold reachable, db_query. intros ->. reflexivity. Qed.

(** The rows an update returns are the updated images of the rows that
    had the id. *)
Lemma filter_update n e t i l :
  List.filter (has_id i)
    (List.map (λ r, if has_id i r then set_profile n e t r else r) l)
  = List.map (set_profile n e t) (List.filter (has_id i) l).
Proof.
  induction l as [|x l IH]; simpl; [reflexivity|].
  destruct (has_id i x) eqn:E; simpl.
  - unfold has_id in *. simpl. rewrite E. simpl. f_equal. exact IH.
  - rewrite E. exact IH.
Qed.

(** What the verify callback does on an accepted profile while the store
    answers: the three branches of the lookup, with the state each leaves. *)
Lemma verify_reachable profile d :
  accepted profile → reachable d →
  run (verify profile) d =
    let o := oid profile in
    let e := email_of profile in
    let n := name_of profile in
    let sel := (SelectByOid o, None) in
    match records_of o d with
    | [] =>
        let r := new_row d o e n in
        (inr (done None (Some r)),
         mkDb (users d ++ [r]) (next_id d + 1) (clock d) []
              ((InsertUser o e n, None) :: sel :: qlog d) (cfg d))
    | u :: _ =>
        if strict_ne (row_name u) n || strict_ne (row_email u) e then
          let users' :=
            List.map (λ r, if has_id (row_id u) r then set_profile n e (clock d) r else r)
                     (users d) in
          (inr (done None (head (List.filter (has_id (row_id u)) users'))),
           mkDb users' (next_id d) (clock d) []
                ((UpdateUser n e (row_id u), None) :: sel :: qlog d) (cfg d))
        else
          (inr (done None (Some u)),
           mkDb (users d) (next_id d) (clock d) [] (sel :: qlog d) (cfg d))
    end.
Proof.
  intros [Ho He] Hr. unfold verify. rewrite Ho, He. cbn [negb orb].
  unfold records_of. cbn -[name_of email_of].
  rewrite (db_query_reachable _ _ Hr). cbn -[name_of email_of].
  red in Hr. rewrite Hr.
  destruct (List.filter (has_oid (oid profile)) (users d)) as [|u rest] eqn:Hf;
    cbn -[name_of email_of].
  - unfold db_query. cbn -[name_of email_of].
    rewrite (filter_nil_existsb _ _ Hf), andb_false_r. reflexivity.
  - destruct (strict_ne (row_name u) (name_of profile)
              || strict_ne (row_email u) (email_of profile)); reflexivity.
Qed.

(** One query: either it is rejected, the table is untouched and the
    journal says so, or it is applied to the table as it stood. *)
Lemma db_query_cases q d :
  (∃ err, (db_query q d).1 = inl err ∧ users (db_query q d).2 = users d ∧
          qlog (db_query q d).2 = (q, Some err) :: qlog d ∧
          (err = DbUnreachable ∨
           err = DbUniqueViolation ∧ ∃ o e n, q = InsertUser o e n ∧
             existsb (has_oid o) (users d) = true ∧ oid_unique (cfg d) = true))
  ∨ (∃ rows dm, (db_query q d).1 = inr rows ∧
        users dm = users d ∧ next_id dm = next_id d ∧ clock dm = clock d ∧
        cfg dm = cfg d ∧ qlog dm = qlog d ∧
        apply_query q dm = (inr rows, (db_query q d).2) ∧
        qlog (db_query q d).2 = (q, None) :: qlog d).
Proof.
  assert (Happ : ∀ dm, users dm = users d → qlog dm = qlog d → cfg dm = cfg d →
    (∃ err, (apply_query q dm).1 = inl err ∧ users (apply_query q dm).2 = users d ∧
            qlog (apply_query q dm).2 = (q, Some err) :: qlog d ∧
            (err = DbUnreachable ∨
             err = DbUniqueViolation ∧ ∃ o e n, q = InsertUser o e n ∧
               existsb (has_oid o) (users d) = true ∧ oid_unique (cfg d) = true))
    ∨ (∃ rows, (apply_query q dm).1 = inr rows ∧
               apply_query q dm = (inr rows, (apply_query q dm).2) ∧
               qlog (apply_query q dm).2 = (q, None) :: qlog d)).
  { intros dm Hu Hq Hc. destruct q; simpl; rewrite ?Hq; try (right; eauto; fail).
    rewrite Hc, Hu.
    destruct (oid_unique (cfg d)) eqn:Eu, (existsb (has_oid azureOid) (users d)) eqn:Ex;
      simpl; rewrite ?Hq, ?Hu; try (right; eauto; fail).
    left. eexists. repeat split; eauto 10. }
  unfold db_query. destruct (outages d) as [|[|] rest].
  - destruct (Happ d eq_refl eq_refl eq_refl) as [H|(rows & H1 & H2 & H3)]; [left; exact H|].
    right. exists rows, d. repeat split; assumption.
  - left. exists DbUnreachable. simpl. repeat split; eauto.
  - set (dm := mkDb (users d) (next_id d) (clock d) rest (qlog d) (cfg d)).
    destruct (Happ dm eq_refl eq_refl eq_refl) as [H|(rows & H1 & H2 & H3)]; [left; exact H|].
    right. exists rows, dm. repeat split; assumption.
Qed.

Lemma apply_select_oid o dm :
  apply_query (SelectByOid o) dm =
    (inr (records_of o dm),
     mkDb (users dm) (next_id dm) (clock dm) (outages dm)
          ((SelectByOid o, None) :: qlog dm) (cfg dm)).
Proof. reflexivity. Qed.

(** Every run of the verify callback on an accepted profile is one of the
    six outcomes. *)
Lemma verify_outcome profile d :
  accepted profile →
  outcome profile d (run (verify profile) d).1 (run (verify profile) d).2.
Proof.
  intros [Ho He]. unfold verify. rewrite Ho, He. cbn [negb orb].
  cbn -[name_of email_of db_query].
  destruct (db_query_cases (SelectByOid (oid profile)) d)
    as [(err & H1 & H2 & H3 & _)|(rows & dm & H1 & Hu & Hn & Hc & Hg & Hq & Ha & Hl)];
    destruct (db_query (SelectByOid (oid profile)) d) as [r1 d1]; cbn [fst snd] in *; subst r1.
  { cbn. now apply lookup_rejected. }
  rewrite apply_select_oid in Ha. injection Ha as Hrows Hd1.
  assert (Hrec : records_of (oid profile) d = rows).
  { unfold records_of in *. rewrite <- Hu. congruence. }
  assert (Hu1 : users d1 = users d) by (rewrite <- Hd1; exact Hu).
  assert (Hc1 : clock d1 = clock d) by (rewrite <- Hd1; exact Hc).
  assert (Hg1 : cfg d1 = cfg d) by (rewrite <- Hd1; exact Hg).
  clear Hrows Hd1 dm Hu Hn Hc Hg Hq.
  destruct rows as [|u rest]; cbn -[name_of email_of db_query].
  - (* no record: insert *)
    set (q := InsertUser _ _ _).
    destruct (db_query_cases q d1)
      as [(err & K1 & K2 & K3 & _)|(rows & dm & K1 & Ku & Kn & Kc & Kg & Kq & Ka & Kl)];
      destruct (db_query q d1) as [r2 d2]; cbn [fst snd] in *; subst r2; cbn -[name_of email_of apply_query].
    + apply create_rejected; [assumption|congruence|]. rewrite K3, Hl. reflexivity.
    + subst q. cbn -[name_of email_of] in Ka.
      destruct (oid_unique (cfg dm) && existsb (has_oid (oid profile)) (users dm));
        [discriminate|].
      injection Ka as Hrows Hd2. subst rows. cbn.
      apply created; try assumption.
      * unfold new_row. cbn. rewrite !pg_param_truthy by (assumption || apply name_of_truthy).
        congruence.
      * rewrite <- Hd2. cbn. rewrite Ku, Hu1. reflexivity.
      * rewrite Kl, Hl. reflexivity.
  - (* a record: compare, maybe update *)
    destruct (strict_ne (row_name u) (name_of profile)
              || strict_ne (row_email u) (email_of profile)) eqn:Hne;
      cbn -[name_of email_of db_query].
    + assert (Hdiff : row_name u ≠ name_of profile ∨ row_email u ≠ email_of profile).
      { apply orb_true_iff in Hne as [H|H]; [left|right]; now apply strict_ne_true. }
      set (q := UpdateUser _ _ _).
      destruct (db_query_cases q d1)
        as [(err & K1 & K2 & K3 & _)|(rows & dm & K1 & Ku & Kn & Kc & Kg & Kq & Ka & Kl)];
        destruct (db_query q d1) as [r2 d2]; cbn [fst snd] in *; subst r2; cbn -[name_of email_of apply_query].
      * eapply refresh_rejected; eauto; [congruence|]. rewrite K3, Hl. reflexivity.
      * subst q. cbn -[name_of email_of] in Ka.
        injection Ka as Hrows Hd2. subst rows.
        assert (Hu2 : users d2 = updated (name_of profile) (email_of profile) (clock d)
                                         (row_id u) (users d)).
        { rewrite <- Hd2. cbn. unfold updated. rewrite Ku, Hu1, Kc, Hc1. reflexivity. }
        replace (List.map _ (users dm)) with (users d2) by (rewrite <- Hd2; reflexivity).
        eapply refreshed; eauto. rewrite Kl, Hl. reflexivity.
    + apply orb_false_iff in Hne as [Hn He'].
      apply strict_ne_false in Hn, He'.
      eapply unchanged; eauto.
Qed.

(* ===================================================================== *)
(** ** The verify callback: invariants and errors (C3, C8) *)
(* ===================================================================== *)

Lemma verify_rejects profile :
  truthy (oid profile) = false ∨ truthy (email_of profile) = false →
  verify profile = Ret (done (Some MissingIdentifiers) None).
Proof.
  intros H. unfold verify.
  destruct H as [-> | ->]; cbn [negb orb]; [reflexivity|].
  rewrite orb_true_r. reflexivity.
Qed.

Lemma accepted_dec profile :
  accepted profile ∨ (truthy (oid profile) = false ∨ truthy (email_of profile) = false).
Proof.
  unfold accepted.
  destruct (truthy (oid profile)), (truthy (email_of profile)); auto.
Qed.

Lemma records_none_not_in o d :
  truthy o = true → records_of o d = [] → ¬ In o (List.map row_azure_oid (users d)).
Proof.
  intros [s ->]%truthy_str Hnone (r & Hr & Hin)%in_map_iff.
  assert (In r (records_of (JStr s) d)) as Hin'.
  { apply filter_In. split; [exact Hin|]. unfold has_oid. rewrite Hr. apply sql_eq_refl. }
  rewrite Hnone in Hin'. exact Hin'.
Qed.

Lemma updated_keys n e t i l :
  List.map (λ r, (row_id r, row_azure_oid r)) (updated n e t i l)
  = List.map (λ r, (row_id r, row_azure_oid r)) l.
Proof.
  unfold updated. induction l as [|x l IH]; simpl; [reflexivity|].
  f_equal; [|exact IH]. destruct (has_id i x); reflexivity.
Qed.

Lemma oids_of_keys d : List.map row_azure_oid (users d) = List.map snd (keys d).
Proof. unfold keys. rewrite List.map_map. reflexivity. Qed.

(** C3: a run of the verify callback keeps the subject ids of the
    directory pairwise distinct.  Whatever the profile, the outages and the
    schema, after the run either every record has the id and subject id it
    had, or exactly one record was added, for the profile's subject id,
    and the lookup had found no record for it. *)
Theorem resolve_preserves_injectivity profile d :
  oid_injective d →
  oid_injective (run (verify profile) d).2 ∧
  (keys (run (verify profile) d).2 = keys d ∨
   records_of (oid profile) d = [] ∧
   ∃ i, keys (run (verify profile) d).2 = keys d ++ [(i, oid profile)]).
Proof.
  intros Hinj.
  assert (Hstep :
    keys (run (verify profile) d).2 = keys d ∨
    truthy (oid profile) = true ∧ records_of (oid profile) d = [] ∧
    ∃ i, keys (run (verify profile) d).2 = keys d ++ [(i, oid profile)]).
  { destruct (accepted_dec profile) as [Hacc|Hrej].
    - pose proof (verify_outcome profile d Hacc) as Hout. destruct Hacc as [Ho _].
      inversion Hout as
        [err d' Hu Hl | r d' Hrec Hr Hu Hl | err d' Hrec Hu Hl
        | u rest d' Hrec Hdiff Hu Hl | u rest err d' Hrec Hdiff Hu Hl
        | u rest d' Hrec Hn He Hu Hl]; unfold keys; rewrite Hu;
        try (left; reflexivity).
      + right. split; [exact Ho|]. split; [exact Hrec|]. exists (row_id r).
        rewrite List.map_app. simpl. rewrite Hr. reflexivity.
      + left. apply updated_keys.
    - rewrite (verify_rejects _ Hrej). left. reflexivity. }
  split.
  - unfold oid_injective in *. rewrite oids_of_keys in *.
    destruct Hstep as [-> | (Ho & Hrec & i & ->)]; [exact Hinj|].
    rewrite List.map_app. simpl.
    apply NoDup_app. split; [exact Hinj|]. split; [|apply NoDup_singleton].
    intros x Hx Hx'. apply list_elem_of_singleton in Hx'. subst x.
    apply list_elem_of_In in Hx. rewrite <- oids_of_keys in Hx.
    exact (records_none_not_in _ _ Ho Hrec Hx).
  - destruct Hstep as [H | (_ & Hrec & H)]; [left; exact H | right; split; assumption].
Qed.

Lemma resolve_preserves_injectivity_witness :
  oid_injective (run (verify bob) alice_db).2 ∧
  keys (run (verify bob) alice_db).2 = keys alice_db ++ [(2, JStr "oid-bob")].
Proof.
  destruct (resolve_preserves_injectivity bob alice_db) as [H _].
  - repeat constructor. simpl. intros H. inversion H.
  - split; [exact H | reflexivity].
Defined.

(** C8: when a query of the verify callback is rejected (the store cannot
    be reached, or any other error), the callback ends with
    [done(err, null)] carrying that very error and no user; the rejected
    statement is the last one sent, every earlier one had succeeded, and
    the table is as it was. *)
Theorem store_error_surfaces profile d :
  ∃ sent, qlog (run (verify profile) d).2 = sent ++ qlog d ∧
    ∀ q err, In (q, Some err) sent →
      (run (verify profile) d).1 = inr (done (Some err) None) ∧
      users (run (verify profile) d).2 = users d ∧
      ∃ earlier, sent = (q, Some err) :: earlier ∧
                 ∀ entry, In entry earlier → entry.2 = None.
Proof.
  destruct (accepted_dec profile) as [Hacc|Hrej].
  - pose proof (verify_outcome profile d Hacc) as Hout.
    inversion Hout as
      [err d' Hu Hl | r d' Hrec Hr Hu Hl | err d' Hrec Hu Hl
      | u rest d' Hrec Hdiff Hu Hl | u rest err d' Hrec Hdiff Hu Hl
      | u rest d' Hrec Hn He Hu Hl];
      match type of Hl with
      | _ = ?a :: ?b :: qlog d => exists [a; b]
      | _ = ?a :: qlog d => exists [a]
      end; (split; [exact Hl|]); intros q e Hin; simpl in Hin;
      repeat (destruct Hin as [Hin|Hin]; [try discriminate|]); try contradiction;
      injection Hin as <- <-; (split; [reflexivity|]); (split; [exact Hu|]);
      eexists; (split; [reflexivity|]); intros entry Hen; simpl in Hen;
      repeat (destruct Hen as [<-|Hen]; [reflexivity|]); contradiction.
  - rewrite (verify_rejects _ Hrej). exists []. split; [reflexivity|].
    intros q e [].
Qed.

Lemma store_error_surfaces_witness :
  (run (verify alice_renamed) flaky_db).1 = inr (done (Some DbUnreachable) None) ∧
  users (run (verify alice_renamed) flaky_db).2 = users flaky_db.
Proof.
  destruct (store_error_surfaces alice_renamed flaky_db) as (sent & Hs & H).
  destruct (H (UpdateUser (JStr "Alice A.") (JStr "alice@uni.edu") 1) DbUnreachable)
    as (H1 & H2 & _).
  - cbn in Hs. rewrite app_nil_r in Hs. subst sent. left. reflexivity.
  - split; [exact H1 | exact H2].
Defined.

(* ===================================================================== *)
(** ** Identity fields and missing identifiers (C9, C4) *)
(* ===================================================================== *)

Lemma email_of_first_usable profile :
  truthy (email_of profile) = true →
  email_of profile = first_usable [upn profile; json_email profile; first_email profile].
Proof.
  unfold email_of, js_or. simpl.
  destruct (truthy (upn profile)) eqn:E1.
  - rewrite E1. reflexivity.
  - destruct (truthy (json_email profile)) eqn:E2.
    + rewrite E2. reflexivity.
    + intros ->. reflexivity.
Qed.

Lemma email_of_falsy profile :
  truthy (upn profile) = false → truthy (json_email profile) = false →
  truthy (first_email profile) = false → truthy (email_of profile) = false.
Proof.
  intros E1 E2 E3. unfold email_of, js_or. rewrite E1, E2, E3. reflexivity.
Qed.

Lemma head_filter_updated n e t u l :
  In u l →
  ∃ v, head (List.filter (has_id (row_id u)) (updated n e t (row_id u) l))
       = Some (set_profile n e t v) ∧
       head (List.filter (has_id (row_id u)) l) = Some v.
Proof.
  intros Hin. unfold updated. rewrite filter_update.
  assert (In u (List.filter (has_id (row_id u)) l)) as Hf.
  { apply filter_In. split; [exact Hin|]. unfold has_id. apply Z.eqb_refl. }
  destruct (List.filter (has_id (row_id u)) l) as [|v rest]; [destruct Hf|].
  exists v. split; reflexivity.
Qed.

Lemma head_In {A} (l : list A) x : head l = Some x → In x l.
Proof. destruct l; simpl; [discriminate|]. intros [= ->]. left. reflexivity. Qed.

(** C9: for an accepted profile the email is the first usable (non-empty)
    value among [upn], the embedded [email] claim and the first entry of
    [emails], in that order; the name is [displayName] when usable and
    'UniEats User' otherwise; and, while the store answers, the callback
    succeeds with a record of the directory that carries exactly this email
    and this name. *)
Theorem recorded_email_and_name profile d :
  accepted profile → reachable d →
  email_of profile = first_usable [upn profile; json_email profile; first_email profile] ∧
  (truthy (displayName profile) = true → name_of profile = displayName profile) ∧
  (truthy (displayName profile) = false → name_of profile = JStr "UniEats User") ∧
  ∃ user, (run (verify profile) d).1 = inr (done None (Some user)) ∧
          In user (users (run (verify profile) d).2) ∧
          row_email user = email_of profile ∧ row_name user = name_of profile.
Proof.
  intros Hacc Hr. split; [apply email_of_first_usable, Hacc|].
  split; [unfold name_of, js_or; intros ->; reflexivity|].
  split; [unfold name_of, js_or; intros ->; reflexivity|].
  rewrite (verify_reachable _ _ Hacc Hr). cbv zeta.
  destruct Hacc as [Ho He].
  destruct (records_of (oid profile) d) as [|u rest] eqn:Hrec.
  - eexists. split; [reflexivity|]. cbn -[email_of name_of].
    split; [apply in_app_iff; right; left; reflexivity|].
    rewrite !pg_param_truthy by (assumption || apply name_of_truthy). split; reflexivity.
  - assert (In u (users d)) as Hin.
    { assert (In u (records_of (oid profile) d)) as H by (rewrite Hrec; left; reflexivity).
      apply filter_In in H. apply H. }
    destruct (strict_ne (row_name u) (name_of profile)
              || strict_ne (row_email u) (email_of profile)) eqn:Hne.
    + destruct (head_filter_updated (name_of profile) (email_of profile) (clock d) u _ Hin)
        as (v & Hv & _).
      fold (updated (name_of profile) (email_of profile) (clock d) (row_id u) (users d)).
      exists (set_profile (name_of profile) (email_of profile) (clock d) v).
      cbn -[email_of name_of updated]. rewrite Hv.
      split; [reflexivity|]. split.
      * apply head_In in Hv. apply filter_In in Hv. apply Hv.
      * rewrite !pg_param_truthy by (assumption || apply name_of_truthy). split; reflexivity.
    + apply orb_false_iff in Hne as [Hn He'].
      apply strict_ne_false in Hn, He'.
      exists u. cbn -[email_of name_of]. repeat split; assumption.
Qed.

Lemma recorded_email_and_name_witness :
  ∃ user, (run (verify bob) empty_db).1 = inr (done None (Some user)) ∧
          row_email user = JStr "bob@uni.edu" ∧ row_name user = JStr "UniEats User".
Proof.
  destruct (recorded_email_and_name bob empty_db) as (_ & _ & _ & user & H1 & _ & H2 & H3).
  - split; reflexivity.
  - reflexivity.
  - exists user. split; [exact H1|]. split; [exact H2 | exact H3].
Defined.

(** C4 (as amended): a profile without a usable subject id, or with none
    of [upn], the embedded [email] claim and the first [emails] entry
    usable, makes the verify callback end with the missing-identifiers
    error before any query is sent: the directory, its journal included,
    is untouched.  On the return route the error goes to the error handler
    (a 500 answer); the session state is untouched as well. *)
Theorem missing_identifier_fails_closed profile r s :
  truthy (oid profile) = false ∨
  (truthy (upn profile) = false ∧ truthy (json_email profile) = false ∧
   truthy (first_email profile) = false) →
  run (verify profile) (directory s)
    = (inr (done (Some MissingIdentifiers) None), directory s) ∧
  auth_openid_return (Validated profile) r s = (next_error MissingIdentifiers, r, s).
Proof.
  intros H.
  assert (Hrej : truthy (oid profile) = false ∨ truthy (email_of profile) = false).
  { destruct H as [H|(E1 & E2 & E3)]; [left; exact H | right; now apply email_of_falsy]. }
  unfold auth_openid_return, authenticate.
  rewrite (verify_rejects _ Hrej). simpl. split; [reflexivity|].
  destruct s; reflexivity.
Qed.

Lemma missing_identifier_fails_closed_witness :
  auth_openid_return (Validated no_oid) (mkReq 0 None None) empty_server
  = (next_error MissingIdentifiers, mkReq 0 None None, empty_server).
Proof.
  apply (missing_identifier_fails_closed no_oid (mkReq 0 None None) empty_server).
  left. reflexivity.
Defined.

(** C4 (as stated) fails: on the return route a profile without subject id
    is answered by the error handler with status 500, not by a redirect
    to the login-failed path. *)
Lemma missing_identifier_not_redirected :
  truthy (oid no_oid) = false ∧
  (serve (auth_openid_return (Validated no_oid)) None empty_server).1
    = Respond 500 (ErrorPage MissingIdentifiers) ∧
  (serve (auth_openid_return (Validated no_oid)) None empty_server).1
    ≠ Redirect (Path "/login-failed").
Proof.
  split; [reflexivity|]. split; [reflexivity|]. discriminate.
Qed.

(* ===================================================================== *)
(** ** Idempotence and refresh (C1, C5) *)
(* ===================================================================== *)

Lemma NoDup_map_inj {A B} (f : A → B) l a b :
  NoDup (List.map f l) → In a l → In b l → f a = f b → a = b.
Proof.
  induction l as [|x l IH]; simpl; [intros _ []|].
  intros Hnd Ha Hb Hf. apply NoDup_cons in Hnd as [Hx Hnd].
  rewrite list_elem_of_In in Hx.
  destruct Ha as [->|Ha], Hb as [->|Hb]; [reflexivity| | |eauto].
  - exfalso. apply Hx. rewrite Hf. apply in_map. exact Hb.
  - exfalso. apply Hx. rewrite <- Hf. apply in_map. exact Ha.
Qed.

Lemma has_oid_self u : truthy (row_azure_oid u) = true → has_oid (row_azure_oid u) u = true.
Proof. unfold has_oid. intros [s ->]%truthy_str. apply sql_eq_refl. Qed.

Lemma has_id_true i r : has_id i r = true ↔ row_id r = i.
Proof. unfold has_id. apply Z.eqb_eq. Qed.

(** An update keeps the rows a lookup by subject id finds, updated. *)
Lemma records_of_updated o n e t i l :
  List.filter (has_oid o) (updated n e t i l) = updated n e t i (List.filter (has_oid o) l).
Proof.
  unfold updated. induction l as [|x l IH]; simpl; [reflexivity|].
  replace (has_oid o (if has_id i x then set_profile n e t x else x)) with (has_oid o x)
    by (destruct (has_id i x); reflexivity).
  destruct (has_oid o x); simpl; rewrite IH; reflexivity.
Qed.

(** The first record held for a subject id, when the ids are unique. *)
Lemma records_of_head d u :
  oid_injective d → In u (users d) → truthy (row_azure_oid u) = true →
  ∃ rest, records_of (row_azure_oid u) d = u :: rest.
Proof.
  intros Hinj Hin Ht.
  assert (In u (records_of (row_azure_oid u) d)) as Hu.
  { apply filter_In. split; [exact Hin | now apply has_oid_self]. }
  destruct (records_of (row_azure_oid u) d) as [|u0 rest] eqn:Hrec; [destruct Hu|].
  assert (In u0 (records_of (row_azure_oid u) d)) as H0 by (rewrite Hrec; left; reflexivity).
  apply filter_In in H0 as [H0 Hoid]. apply sql_eq_true in Hoid.
  rewrite (NoDup_map_inj row_azure_oid (users d) u0 u Hinj H0 Hin Hoid). eauto.
Qed.

(** With unique ids an update rewrites exactly the record it names. *)
Lemma updated_only n e t u l :
  NoDup (List.map row_id l) → In u l →
  updated n e t (row_id u) l
  = List.map (λ r, if bool_decide (r = u) then set_profile n e t u else r) l.
Proof.
  intros Hnd Hin. unfold updated. apply map_ext_in. intros r Hr.
  destruct (has_id (row_id u) r) eqn:E.
  - apply has_id_true in E.
    rewrite (NoDup_map_inj row_id l r u Hnd Hr Hin E).
    rewrite bool_decide_eq_true_2; reflexivity.
  - rewrite bool_decide_eq_false_2; [reflexivity|].
    intros ->. unfold has_id in E. rewrite Z.eqb_refl in E. discriminate.
Qed.

(** C1: resolving the same identity twice in a row.  With a usable subject
    id and email, a store that answers and a table in which no two records
    share a subject id, the first call succeeds and the second sends the
    lookup and nothing else: it inserts nothing, updates nothing, leaves
    every record of the table as it was, and returns a record with the id
    the first call returned. *)
Theorem resolve_idempotent profile d :
  accepted profile → reachable d → oid_injective d →
  ∃ user1 user2 d1,
    run (verify profile) d = (inr (done None (Some user1)), d1) ∧
    (run (verify profile) d1).1 = inr (done None (Some user2)) ∧
    row_id user2 = row_id user1 ∧
    users (run (verify profile) d1).2 = users d1 ∧
    qlog (run (verify profile) d1).2 = (SelectByOid (oid profile), None) :: qlog d1.
Proof.
  intros Hacc Hr _. pose proof Hacc as [Ho He].
  pose proof (name_of_truthy profile) as Hn.
  rewrite (verify_reachable _ _ Hacc Hr). cbv zeta.
  destruct (records_of (oid profile) d) as [|u rest] eqn:Hrec.
  - (* first call created the record *)
    set (r := new_row d (oid profile) (email_of profile) (name_of profile)).
    eexists r, r, _. split; [reflexivity|].
    rewrite (verify_reachable _ _ Hacc) by reflexivity. cbv zeta.
    assert (records_of (oid profile)
              (mkDb (users d ++ [r]) (next_id d + 1) (clock d) []
                 ((InsertUser (oid profile) (email_of profile) (name_of profile), None)
                  :: (SelectByOid (oid profile), None) :: qlog d) (cfg d)) = [r]) as ->.
    { unfold records_of in *. cbn [users]. rewrite List.filter_app, Hrec. cbn -[r].
      replace (has_oid (oid profile) r) with true; [reflexivity|].
      symmetry. unfold has_oid, r. cbn. rewrite pg_param_truthy by assumption.
      destruct (truthy_str _ Ho) as [s ->]. apply sql_eq_refl. }
    replace (strict_ne (row_name r) (name_of profile)) with false
      by (symmetry; apply strict_ne_false; unfold r; cbn; now apply pg_param_truthy).
    replace (strict_ne (row_email r) (email_of profile)) with false
      by (symmetry; apply strict_ne_false; unfold r; cbn; now apply pg_param_truthy).
    cbn -[r name_of email_of]. repeat split; reflexivity.
  - assert (In u (users d)) as Hin.
    { assert (In u (records_of (oid profile) d)) as H by (rewrite Hrec; left; reflexivity).
      apply filter_In in H. apply H. }
    destruct (strict_ne (row_name u) (name_of profile)
              || strict_ne (row_email u) (email_of profile)) eqn:Hne.
    + (* first call updated the record *)
      fold (updated (name_of profile) (email_of profile) (clock d) (row_id u) (users d)).
      destruct (head_filter_updated (name_of profile) (email_of profile) (clock d) u _ Hin)
        as (v & Hv & Hv').
      rewrite Hv.
      set (u' := set_profile (name_of profile) (email_of profile) (clock d) u).
      eexists _, u', _. split; [reflexivity|].
      match goal with |- context [run (verify profile) ?x] => set (d1 := x) end.
      rewrite (verify_reachable _ d1 Hacc) by reflexivity. cbv zeta.
      assert (records_of (oid profile) d1
              = u' :: updated (name_of profile) (email_of profile) (clock d) (row_id u) rest)
        as ->.
      { unfold records_of, d1. cbn [users]. rewrite records_of_updated.
        fold (records_of (oid profile) d). rewrite Hrec.
        unfold updated. cbn [List.map]. unfold has_id at 1. rewrite Z.eqb_refl. reflexivity. }
      replace (strict_ne (row_name u') (name_of profile)) with false
        by (symmetry; apply strict_ne_false; unfold u'; cbn; now apply pg_param_truthy).
      replace (strict_ne (row_email u') (email_of profile)) with false
        by (symmetry; apply strict_ne_false; unfold u'; cbn; now apply pg_param_truthy).
      cbn -[u' name_of email_of updated]. split; [reflexivity|]. split; [|split; reflexivity].
      apply head_In, filter_In in Hv' as [_ Hid]. apply has_id_true in Hid.
      cbn. symmetry. exact Hid.
    + (* first call found the record up to date *)
      exists u, u. eexists. split; [reflexivity|].
      match goal with |- context [run (verify profile) ?x] => set (d1 := x) end.
      rewrite (verify_reachable _ d1 Hacc) by reflexivity. cbv zeta.
      assert (records_of (oid profile) d1 = u :: rest) as -> by exact Hrec.
      rewrite Hne. cbn -[name_of email_of]. repeat split; reflexivity.
Qed.

Lemma resolve_idempotent_witness :
  ∃ user1 user2 d1,
    run (verify alice_renamed) alice_db = (inr (done None (Some user1)), d1) ∧
    (run (verify alice_renamed) d1).1 = inr (done None (Some user2)) ∧
    row_id user2 = row_id user1 ∧
    users (run (verify alice_renamed) d1).2 = users d1 ∧
    qlog (run (verify alice_renamed) d1).2
      = (SelectByOid (oid alice_renamed), None) :: qlog d1.
Proof.
  apply (resolve_idempotent alice_renamed alice_db).
  - split; reflexivity.
  - reflexivity.
  - repeat constructor. simpl. intros H. inversion H.
Defined.

(** C5: an existing record whose name or email differs from the identity
    presented for its subject id, the identity being the subject id, email
    and name the callback extracts from the profile.  While the store
    answers (and ids and subject ids are unique in the table) the callback
    rewrites that record and no other: name and email become those of the
    identity, the update timestamp becomes the current time, and id,
    subject id, role and creation time stay; the record it returns is the
    rewritten one. *)
Theorem resolve_refreshes_record profile d u :
  accepted profile → reachable d → id_injective d → oid_injective d →
  In u (users d) → row_azure_oid u = oid profile →
  row_name u ≠ name_of profile ∨ row_email u ≠ email_of profile →
  let u' := mkRow (row_id u) (row_azure_oid u) (email_of profile) (name_of profile)
                  (row_role u) (row_created_at u) (clock d) in
  (run (verify profile) d).1 = inr (done None (Some u')) ∧
  users (run (verify profile) d).2
    = List.map (λ r, if bool_decide (r = u) then u' else r) (users d) ∧
  In u' (users (run (verify profile) d).2) ∧
  qlog (run (verify profile) d).2
    = (UpdateUser (name_of profile) (email_of profile) (row_id u), None)
        :: (SelectByOid (oid profile), None) :: qlog d.
Proof.
  intros Hacc Hr Hid Hoid Hin Hu Hdiff u'. pose proof Hacc as [Ho He].
  pose proof (name_of_truthy profile) as Hn.
  assert (Hu' : set_profile (name_of profile) (email_of profile) (clock d) u = u').
  { unfold set_profile, u'. rewrite !pg_param_truthy by assumption. reflexivity. }
  rewrite (verify_reachable _ _ Hacc Hr). cbv zeta.
  destruct (records_of_head d u Hoid Hin) as [rest Hrec]; [rewrite Hu; exact Ho|].
  rewrite Hu in Hrec. rewrite Hrec.
  replace (strict_ne (row_name u) (name_of profile)
           || strict_ne (row_email u) (email_of profile)) with true.
  2:{ symmetry. apply orb_true_iff.
      destruct Hdiff as [H|H]; [left|right]; now apply strict_ne_true. }
  fold (updated (name_of profile) (email_of profile) (clock d) (row_id u) (users d)).
  destruct (head_filter_updated (name_of profile) (email_of profile) (clock d) u _ Hin)
    as (v & Hv & Hv').
  assert (v = u) as ->.
  { apply head_In, filter_In in Hv' as [Hvin Hvid]. apply has_id_true in Hvid.
    exact (NoDup_map_inj row_id (users d) v u Hid Hvin Hin Hvid). }
  rewrite Hv, Hu'. cbn -[name_of email_of updated u'].
  rewrite (updated_only _ _ _ _ _ Hid Hin), Hu'.
  split; [reflexivity|]. split; [reflexivity|]. split; [|reflexivity].
  apply in_map_iff. exists u. split; [|exact Hin].
  rewrite bool_decide_eq_true_2; reflexivity.
Qed.

Lemma resolve_refreshes_record_witness :
  (run (verify alice_renamed) alice_db).1
  = inr (done None (Some (mkRow 1 (JStr "oid-alice") (JStr "alice@uni.edu")
                                (JStr "Alice A.") (JStr "customer") 1000 2000))).
Proof.
  refine (proj1 (resolve_refreshes_record alice_renamed alice_db alice_row _ _ _ _ _ _ _)).
  - split; reflexivity.
  - reflexivity.
  - repeat constructor. simpl. intros H. inversion H.
  - repeat constructor. simpl. intros H. inversion H.
  - left. reflexivity.
  - reflexivity.
  - left. discriminate.
Defined.

(* ===================================================================== *)
(** ** Two first-time resolutions in flight (C2) *)
(* ===================================================================== *)

(** The shape of the callback on an accepted profile: one lookup, then
    by its result an insert, an update or nothing, and nothing after. *)
Lemma verify_tree profile :
  accepted profile →
  ∃ k1, verify profile = Await (SelectByOid (oid profile)) k1 ∧
    (∀ err, k1 (inl err) = Ret (done (Some err) None)) ∧
    (∃ k2, k1 (inr []) =
             Await (InsertUser (oid profile) (email_of profile) (name_of profile)) k2 ∧
           finishes k2) ∧
    (∀ u rest,
       (row_name u ≠ name_of profile ∨ row_email u ≠ email_of profile →
        ∃ k3, k1 (inr (u :: rest)) =
                Await (UpdateUser (name_of profile) (email_of profile) (row_id u)) k3 ∧
              finishes k3) ∧
       (row_name u = name_of profile → row_email u = email_of profile →
        k1 (inr (u :: rest)) = Ret (done None (Some u)))).
Proof.
  intros [Ho He]. unfold verify. rewrite Ho, He. cbn [negb orb].
  eexists. split; [reflexivity|]. cbn -[name_of email_of].
  split; [reflexivity|]. split.
  - eexists. split; [reflexivity|]. split; reflexivity.
  - intros u rest. split.
    + intros Hdiff.
      replace (strict_ne (row_name u) (name_of profile)
               || strict_ne (row_email u) (email_of profile)) with true.
      2:{ symmetry. apply orb_true_iff.
          destruct Hdiff as [H|H]; [left|right]; now apply strict_ne_true. }
      eexists. split; [reflexivity|]. split; reflexivity.
    + intros <- <-. unfold strict_ne, strict_eq.
      rewrite !bool_decide_eq_true_2 by reflexivity. reflexivity.
Qed.

Lemma records_existsb o d :
  existsb (has_oid o) (users d) = true ↔ records_of o d ≠ [].
Proof.
  unfold records_of. induction (users d) as [|x l IH]; simpl.
  - split; [discriminate | congruence].
  - destruct (has_oid o x); simpl; [split; [discriminate | reflexivity] | exact IH].
Qed.

Lemma grows_refl o d : grows o d d.
Proof. split; auto. Qed.

Lemma grows_trans o d1 d2 d3 : grows o d1 d2 → grows o d2 d3 → grows o d1 d3.
Proof. intros [A1 A2] [B1 B2]. split; auto. Qed.

Lemma grows_same_users o d d' : users d' = users d → grows o d d'.
Proof. intros H. unfold grows, records_of. rewrite H. split; auto. Qed.

Lemma phase_grows profile d d' x :
  grows (oid profile) d d' → phase profile d x → phase profile d' x.
Proof.
  intros [G1 G2] Hp. destruct Hp; econstructor; eauto.
Qed.

Lemma strict_cases (a b c e : jsval) :
  (a ≠ b ∨ c ≠ e) ∨ (a = b ∧ c = e).
Proof.
  destruct (decide (a = b)), (decide (c = e)); auto.
Qed.

(** One turn of a run keeps the standing conditions, never removes a
    record, and leads to the next phase. *)
Lemma step_phase profile d x :
  accepted profile → guarded (oid profile) d → phase profile d x →
  guarded (oid profile) (step x d).2 ∧ grows (oid profile) d (step x d).2 ∧
  phase profile (step x d).2 (step x d).1.
Proof.
  intros Hacc (Hr & Hc & Hn) Hp. pose proof Hacc as [Ho He].
  pose proof (name_of_truthy profile) as Hname.
  destruct Hp as [|k Hk|i k Hk Hex Hrec|user Hrec|Hrec].
  - (* the lookup *)
    destruct (verify_tree profile Hacc) as (k1 & -> & _ & (k2 & Hk2 & Hf2) & Hk1).
    cbn [step]. rewrite (db_query_reachable _ _ Hr). cbn [apply_query fst snd].
    fold (records_of (oid profile) d).
    set (d' := mkDb _ _ _ _ _ _).
    assert (Hg : guarded (oid profile) d') by (repeat split; assumption).
    assert (Hgr : grows (oid profile) d d') by (apply grows_same_users; reflexivity).
    split; [exact Hg|]. split; [exact Hgr|].
    destruct (records_of (oid profile) d) as [|u rest] eqn:Hrec.
    + rewrite Hk2. now apply at_insert.
    + assert (Hne : records_of (oid profile) d' ≠ []).
      { unfold records_of, d'. cbn [users]. fold (records_of (oid profile) d).
        rewrite Hrec. discriminate. }
      destruct (Hk1 u rest) as [Hstale Hfresh].
      destruct (strict_cases (row_name u) (name_of profile)
                             (row_email u) (email_of profile)) as [Hd|[H1 H2]].
      * destruct (Hstale Hd) as (k3 & -> & Hf3). apply at_update; try assumption.
        exists u. split; [|reflexivity].
        assert (In u (records_of (oid profile) d)) as H by (rewrite Hrec; left; reflexivity).
        apply filter_In in H. apply H.
      * rewrite (Hfresh H1 H2). now apply at_user.
  - (* the insert *)
    destruct Hk as [Kerr Kok].
    cbn [step]. rewrite (db_query_reachable _ _ Hr). cbn [apply_query]. rewrite Hc.
    cbn [andb].
    destruct (existsb (has_oid (oid profile)) (users d)) eqn:Hex; cbn [fst snd].
    + apply records_existsb in Hex.
      set (d' := mkDb _ _ _ _ _ _).
      assert (Hgr : grows (oid profile) d d') by (apply grows_same_users; reflexivity).
      split; [repeat split; assumption|]. split; [exact Hgr|].
      rewrite Kerr. apply at_duplicate. now apply Hgr.
    + set (r := new_row d _ _ _). set (d' := mkDb _ _ _ _ _ _).
      assert (Hnone : records_of (oid profile) d = []).
      { destruct (records_of (oid profile) d) eqn:E; [reflexivity|].
        assert (existsb (has_oid (oid profile)) (users d) = true) as H.
        { apply records_existsb. rewrite E. discriminate. }
        congruence. }
      assert (Hone : records_of (oid profile) d' = [r]).
      { unfold records_of in *. unfold d'. cbn [users].
        rewrite List.filter_app, Hnone. cbn -[r].
        replace (has_oid (oid profile) r) with true; [reflexivity|].
        symmetry. unfold has_oid, r. cbn. rewrite pg_param_truthy by assumption.
        destruct (truthy_str _ Ho) as [s ->]. apply sql_eq_refl. }
      split; [|split].
      * split; [exact Hr|]. split; [exact Hc|]. rewrite Hone. simpl. lia.
      * split; [rewrite Hone; discriminate|].
        intros i (u & Hu & Hi). exists u. split; [|exact Hi].
        unfold d'. cbn [users]. apply in_app_iff. left. exact Hu.
      * rewrite Kok. cbn [head]. apply at_user. rewrite Hone. discriminate.
  - (* the update *)
    destruct Hk as [Kerr Kok].
    cbn [step]. rewrite (db_query_reachable _ _ Hr). cbn [apply_query fst snd].
    fold (updated (name_of profile) (email_of profile) (clock d) i (users d)).
    set (d' := mkDb _ _ _ _ _ _).
    assert (Hlen : records_of (oid profile) d'
                   = updated (name_of profile) (email_of profile) (clock d) i
                             (records_of (oid profile) d)).
    { unfold records_of, d'. cbn [users]. apply records_of_updated. }
    assert (Hgr : grows (oid profile) d d').
    { split.
      - rewrite Hlen. intros H. destruct (records_of (oid profile) d); [congruence|].
        discriminate.
      - intros j (u & Hu & Hj).
        exists (if has_id i u
                then set_profile (name_of profile) (email_of profile) (clock d) u else u).
        split; [|destruct (has_id i u); exact Hj].
        unfold d'. cbn [users]. unfold updated. apply in_map_iff. eauto. }
    split; [|split; [exact Hgr|]].
    + split; [exact Hr|]. split; [exact Hc|]. rewrite Hlen. unfold updated.
      rewrite length_map. exact Hn.
    + rewrite Kok. destruct Hex as (u & Hu & <-).
      destruct (head_filter_updated (name_of profile) (email_of profile) (clock d) u _ Hu)
        as (v & -> & _).
      apply at_user. now apply Hgr.
  - cbn. split; [repeat split; assumption|]. split; [apply grows_refl|]. now apply at_user.
  - cbn. split; [repeat split; assumption|]. split; [apply grows_refl|]. now apply at_duplicate.
Qed.

Lemma run_step {A} (p : prog A) d : run p d = run (step p d).1 (step p d).2.
Proof.
  destruct p; cbn; try reflexivity. destruct (db_query q d); reflexivity.
Qed.

Lemma phase_final profile d x :
  phase profile d x →
  (∃ r, x = Ret r) ∨ (∃ q k, x = Await q k ∧ ∀ r, ∃ y, k r = Ret y) ∨ x = verify profile.
Proof.
  intros [|k [K1 K2]|i k [K1 K2] _ _|user _|_]; eauto.
  - right; left. do 2 eexists. split; [reflexivity|]. intros [e|rows]; eauto.
  - right; left. do 2 eexists. split; [reflexivity|]. intros [e|rows]; eauto.
Qed.

(** A run left alone ends: with a user or on a duplicate key, and with a
    record for the subject id in the table. *)
Lemma run_phase profile d x :
  accepted profile → guarded (oid profile) d → phase profile d x →
  guarded (oid profile) (run x d).2 ∧ grows (oid profile) d (run x d).2 ∧
  records_of (oid profile) (run x d).2 ≠ [] ∧
  ((∃ user, (run x d).1 = inr (done None (Some user))) ∨
   (run x d).1 = inr (done (Some DbUniqueViolation) None)).
Proof.
  intros Hacc Hg Hp.
  assert (Hdone : ∀ d0 y, guarded (oid profile) d0 → phase profile d0 (Ret y) →
    guarded (oid profile) (run (Ret y) d0).2 ∧ grows (oid profile) d0 (run (Ret y) d0).2 ∧
    records_of (oid profile) (run (Ret y) d0).2 ≠ [] ∧
    ((∃ user, (run (Ret y) d0).1 = inr (done None (Some user))) ∨
     (run (Ret y) d0).1 = inr (done (Some DbUniqueViolation) None))).
  { intros d0 y Hg0 Hp0. cbn. split; [exact Hg0|]. split; [apply grows_refl|].
    inversion Hp0; subst; try (split; [assumption|]; eauto; fail).
    exfalso. destruct (verify_tree profile Hacc) as (k1 & Hv & _). congruence. }
  assert (Hone : ∀ d0 q k, guarded (oid profile) d0 → phase profile d0 (Await q k) →
    (∀ r, ∃ y, k r = Ret y) →
    guarded (oid profile) (run (Await q k) d0).2 ∧
    grows (oid profile) d0 (run (Await q k) d0).2 ∧
    records_of (oid profile) (run (Await q k) d0).2 ≠ [] ∧
    ((∃ user, (run (Await q k) d0).1 = inr (done None (Some user))) ∨
     (run (Await q k) d0).1 = inr (done (Some DbUniqueViolation) None))).
  { intros d0 q k Hg0 Hp0 Hk.
    destruct (step_phase profile d0 _ Hacc Hg0 Hp0) as (Hg1 & Hgr1 & Hp1).
    rewrite run_step. cbn [step] in *. destruct (db_query q d0) as [r d1]. cbn [fst snd] in *.
    destruct (Hk r) as [y Hy]. rewrite Hy in *.
    destruct (Hdone d1 y Hg1 Hp1) as (A & B & C & D).
    split; [exact A|]. split; [eapply grows_trans; eassumption|]. split; assumption. }
  destruct (phase_final _ _ _ Hp) as [[r ->]|[(q & k & -> & Hk)| ->]].
  - now apply Hdone.
  - now apply Hone.
  - destruct (step_phase profile d _ Hacc Hg Hp) as (Hg1 & Hgr1 & Hp1).
    rewrite run_step.
    destruct (phase_final _ _ _ Hp1) as [[r Hr]|[(q & k & Hq & Hk)| Hv]].
    + rewrite Hr in *. destruct (Hdone _ r Hg1 Hp1) as (A & B & C & D).
      split; [exact A|]. split; [eapply grows_trans; eassumption|]. split; assumption.
    + rewrite Hq in *. destruct (Hone _ q k Hg1 Hp1 Hk) as (A & B & C & D).
      split; [exact A|]. split; [eapply grows_trans; eassumption|]. split; assumption.
    + exfalso. destruct (verify_tree profile Hacc) as (k1 & Hv1 & Ke & (k2 & Hk2 & _) & Hk1).
      rewrite Hv1 in Hv. cbn [step fst] in Hv.
      destruct (db_query (SelectByOid (oid profile)) d) as [[e|[|u rest]] d1]; cbn in Hv.
      * rewrite Ke in Hv. discriminate.
      * rewrite Hk2 in Hv. discriminate.
      * destruct (Hk1 u rest) as [Hs Hf].
        destruct (strict_cases (row_name u) (name_of profile)
                               (row_email u) (email_of profile)) as [Hd|[H1 H2]].
        -- destruct (Hs Hd) as (k3 & Hk3 & _). rewrite Hk3 in Hv. discriminate.
        -- rewrite (Hf H1 H2) in Hv. discriminate.
Qed.

(** Two runs for the same subject id, under any schedule: one record at
    the end, and each run ends with a user or on the duplicate key. *)
Lemma interleave_phase profile1 profile2 sched :
  accepted profile1 → accepted profile2 → oid profile2 = oid profile1 →
  ∀ d x y,
    guarded (oid profile1) d → phase profile1 d x → phase profile2 d y →
    length (records_of (oid profile1) (interleave sched x y d).2) = 1%nat ∧
    ∀ r, r = (interleave sched x y d).1.1 ∨ r = (interleave sched x y d).1.2 →
         (∃ user, r = inr (done None (Some user))) ∨
         r = inr (done (Some DbUniqueViolation) None).
Proof.
  intros Hacc1 Hacc2 Hoid.
  induction sched as [|b sched IH]; intros d x y Hg Hx Hy.
  - cbn [interleave].
    destruct (run_phase profile1 d x Hacc1 Hg Hx) as (Hg1 & Hgr1 & _ & Hr1).
    destruct (run x d) as [r1 d1]. cbn [fst snd] in *.
    assert (Hy1 : phase profile2 d1 y) by (apply (phase_grows _ d); [rewrite Hoid|]; assumption).
    rewrite <- Hoid in Hg1.
    destruct (run_phase profile2 d1 y Hacc2 Hg1 Hy1) as (Hg2 & _ & Hne & Hr2).
    destruct (run y d1) as [r2 d2]. cbn [fst snd] in *.
    rewrite Hoid in Hg2, Hne. split.
    + destruct Hg2 as (_ & _ & Hle).
      destruct (records_of (oid profile1) d2) as [|u [|v rest]]; simpl in *; [congruence|lia|lia].
    + intros r [->| ->]; assumption.
  - destruct b; cbn [interleave].
    + destruct (step_phase profile1 d x Hacc1 Hg Hx) as (Hg1 & Hgr1 & Hx1).
      destruct (step x d) as [x1 d1]. cbn [fst snd] in *.
      apply IH; [assumption..|].
      apply (phase_grows _ d); [rewrite Hoid|]; assumption.
    + rewrite <- Hoid in Hg.
      destruct (step_phase profile2 d y Hacc2 Hg Hy) as (Hg1 & Hgr1 & Hy1).
      destruct (step y d) as [y1 d1]. cbn [fst snd] in *.
      rewrite Hoid in Hg1, Hgr1.
      apply IH; [assumption| |assumption].
      apply (phase_grows _ d); assumption.
Qed.

(** C2 (as amended): when the lookup found no record and the insert is
    then rejected, whatever the error, the callback is finished: it passes
    that error to [done] with no user and sends no further lookup.  With
    the uniqueness constraint declared and the store answering, two
    first-time runs for one new subject id, interleaved in any order at
    their awaits, leave exactly one record for it; each run ends with a
    user or with the duplicate-key error. *)
Theorem concurrent_first_resolve profile1 profile2 d :
  accepted profile1 → accepted profile2 → oid profile2 = oid profile1 →
  reachable d → oid_unique (cfg d) = true → records_of (oid profile1) d = [] →
  (∃ k1 k2,
     verify profile1 = Await (SelectByOid (oid profile1)) k1 ∧
     k1 (inr []) =
       Await (InsertUser (oid profile1) (email_of profile1) (name_of profile1)) k2 ∧
     ∀ err, k2 (inl err) = Ret (done (Some err) None)) ∧
  ∀ sched,
    length (records_of (oid profile1)
              (interleave sched (verify profile1) (verify profile2) d).2) = 1%nat ∧
    ∀ r, r = (interleave sched (verify profile1) (verify profile2) d).1.1 ∨
         r = (interleave sched (verify profile1) (verify profile2) d).1.2 →
         (∃ user, r = inr (done None (Some user))) ∨
         r = inr (done (Some DbUniqueViolation) None).
Proof.
  intros Hacc1 Hacc2 Hoid Hr Hc Hnone. split.
  - destruct (verify_tree profile1 Hacc1) as (k1 & Hv & _ & (k2 & Hk2 & Hf & _) & _).
    exists k1, k2. repeat split; assumption.
  - intros sched. apply (interleave_phase profile1 profile2); try assumption.
    + split; [exact Hr|]. split; [exact Hc|]. rewrite Hnone. simpl. lia.
    + apply at_start.
    + apply at_start.
Qed.

Lemma concurrent_first_resolve_witness :
  length (records_of (oid alice)
            (interleave [true; false] (verify alice) (verify alice_renamed) empty_db).2)
  = 1%nat.
Proof.
  refine (proj1 (proj2 (concurrent_first_resolve alice alice_renamed empty_db
                          _ _ _ _ _ _) [true; false])).
  - split; reflexivity.
  - split; reflexivity.
  - reflexivity.
  - reflexivity.
  - reflexivity.
  - reflexivity.
Defined.

(** C2 (as stated) fails: two first-time runs for one new subject id, both
    lookups before both inserts.  The second insert is rejected on the
    duplicate key; that run ends with this error and no user, not with the
    record the other run created, and the journal holds the two first
    lookups only: no lookup follows the rejected insert. *)
Lemma create_failure_is_surfaced :
  interleave [true; false] (verify alice) (verify alice) empty_db
  = ((inr (done None (Some alice_row)), inr (done (Some DbUniqueViolation) None)),
     mkDb [alice_row] 3 1000 []
          [(InsertUser (JStr "oid-alice") (JStr "alice@uni.edu") (JStr "Alice"),
            Some DbUniqueViolation);
           (InsertUser (JStr "oid-alice") (JStr "alice@uni.edu") (JStr "Alice"), None);
           (SelectByOid (JStr "oid-alice"), None);
           (SelectByOid (JStr "oid-alice"), None)]
          customers) ∧
  (interleave [true; false] (verify alice) (verify alice) empty_db).1.2
  ≠ inr (done None (Some alice_row)).
Proof. split; [reflexivity | discriminate]. Qed.

(* ===================================================================== *)
(** ** Sessions and the user endpoint (C6, C10, C7) *)
(* ===================================================================== *)

(** [deserializeUser] while the store answers: one lookup by id, and the
    first row, if any, is the user. *)
Lemma deserialize_reachable i d :
  reachable d →
  run (deserializeUser i) d
  = (inr (done None (findById i d)),
     mkDb (users d) (next_id d) (clock d) [] ((SelectById i, None) :: qlog d) (cfg d)).
Proof.
  intros Hr. unfold deserializeUser. cbn -[db_query].
  rewrite (db_query_reachable _ _ Hr). red in Hr. cbn. rewrite Hr. reflexivity.
Qed.

(** What the session middleware and [passport.session()] put in
    [req.user] while the store answers. *)
Lemma validate_reachable sid s :
  reachable (directory s) →
  validate sid s =
    inr (match store s !! sid with
         | Some sess =>
             if expires sess <=? now s then None
             else match passport_user sess with
                  | Some i => findById i (directory s)
                  | None => None
                  end
         | None => None
         end).
Proof.
  intros Hr. unfold validate, load_session.
  destruct (store s !! sid) as [sess|]; [|reflexivity].
  destruct (expires sess <=? now s); [reflexivity|].
  unfold passport_session. cbn [req_session].
  destruct (passport_user sess) as [i|]; [|reflexivity].
  rewrite (deserialize_reachable _ _ Hr).
  destruct (findById i (directory s)); reflexivity.
Qed.

(** The route sees in [req.user] what [validate] finds. *)
Lemma serve_api_user cookie s :
  reachable (directory s) →
  (serve api_user cookie s).1 =
    match cookie with
    | Some sid =>
        match validate sid s with
        | inr (Some user) =>
            Respond 200 (UserJson true (row_id user) (row_name user)
                                  (row_email user) (row_role user))
        | _ => Respond 401 (MessageJson false "Not authenticated")
        end
    | None => Respond 401 (MessageJson false "Not authenticated")
    end.
Proof.
  intros Hr. destruct cookie as [sid|]; [|reflexivity].
  rewrite (validate_reachable _ _ Hr). unfold serve, load_session.
  destruct (store s !! sid) as [sess|]; [|reflexivity].
  destruct (expires sess <=? now s); [reflexivity|].
  unfold passport_session. cbn [req_session].
  destruct (passport_user sess) as [i|]; [|reflexivity].
  rewrite (deserialize_reachable _ _ Hr).
  destruct (findById i (directory s)); reflexivity.
Qed.

(** [deserializeUser] by the outcome of its lookup. *)
Lemma deserialize_by_outages i d :
  match outages d with
  | true :: _ => (run (deserializeUser i) d).1 = inr (done (Some DbUnreachable) None)
  | _ => (run (deserializeUser i) d).1 = inr (done None (findById i d))
  end.
Proof.
  unfold deserializeUser. cbn -[db_query]. unfold db_query.
  destruct (outages d) as [|[|] rest]; reflexivity.
Qed.

(** What GET /api/user answers unless the lookup of the session's user is
    rejected. *)
Lemma serve_api_user_answered cookie s :
  ¬ deserialize_rejected cookie s →
  (serve api_user cookie s).1 =
    match cookie with
    | Some sid =>
        match store s !! sid with
        | Some sess =>
            if expires sess <=? now s
            then Respond 401 (MessageJson false "Not authenticated")
            else match passport_user sess with
                 | Some i =>
                     match findById i (directory s) with
                     | Some user =>
                         Respond 200 (UserJson true (row_id user) (row_name user)
                                               (row_email user) (row_role user))
                     | None => Respond 401 (MessageJson false "Not authenticated")
                     end
                 | None => Respond 401 (MessageJson false "Not authenticated")
                 end
        | None => Respond 401 (MessageJson false "Not authenticated")
        end
    | None => Respond 401 (MessageJson false "Not authenticated")
    end.
Proof.
  intros Hnr. unfold serve, load_session.
  destruct cookie as [sid|]; [|reflexivity].
  destruct (store s !! sid) as [sess|] eqn:Hs; [|reflexivity].
  destruct (expires sess <=? now s) eqn:Hexp; [reflexivity|].
  unfold passport_session. cbn [req_session].
  destruct (passport_user sess) as [i|] eqn:Hi; [|reflexivity].
  pose proof (deserialize_by_outages i (directory s)) as Hd.
  destruct (outages (directory s)) as [|[|] rest] eqn:Ho.
  - destruct (run (deserializeUser i) (directory s)) as [res d']. cbn [fst] in Hd. subst res.
    destruct (findById i (directory s)); reflexivity.
  - exfalso. apply Hnr. exists sid, sess, i, rest. apply Z.leb_gt in Hexp.
    repeat split; assumption.
  - destruct (run (deserializeUser i) (directory s)) as [res d']. cbn [fst] in Hd. subst res.
    destruct (findById i (directory s)); reflexivity.
Qed.

(** C6 (as amended): GET /api/user.  The handler answers by [req.user]
    alone: 200 with [{success: true, user: {id, name, email, role}}] taken
    from it when it is set, 401 with
    [{success: false, message: 'Not authenticated'}] when it is not.
    Behind the middleware, unless the lookup of the session's user is
    rejected, a request presenting a session that is in the store, has not
    expired and carries a user id the directory resolves gets the first
    answer, built from the resolved user, and every other request gets the
    second.  When that lookup is rejected because the store cannot be
    reached, the error goes to the error handler (500) and the handler is
    not run. *)
Theorem api_user_response cookie s :
  (∀ r s0,
     (api_user r s0).1.1
     = match req_user r with
       | Some user =>
           Respond 200 (UserJson true (row_id user) (row_name user)
                                 (row_email user) (row_role user))
       | None => Respond 401 (MessageJson false "Not authenticated")
       end) ∧
  (¬ deserialize_rejected cookie s →
     (∀ user, valid_session cookie s user →
        (serve api_user cookie s).1
        = Respond 200 (UserJson true (row_id user) (row_name user)
                                (row_email user) (row_role user))) ∧
     ((¬ ∃ user, valid_session cookie s user) →
        (serve api_user cookie s).1
        = Respond 401 (MessageJson false "Not authenticated"))) ∧
  (deserialize_rejected cookie s →
     (serve api_user cookie s).1 = Respond 500 (ErrorPage DbUnreachable)).
Proof.
  split.
  { intros r s0. unfold api_user, isAuthenticated. destruct (req_user r); reflexivity. }
  split.
  - intros Hnr. rewrite (serve_api_user_answered _ _ Hnr). split.
    + intros user (sid & sess & i & -> & Hs & Hexp & Hi & Hfind).
      rewrite Hs, Hi, Hfind.
      replace (expires sess <=? now s) with false by (symmetry; apply Z.leb_gt; exact Hexp).
      reflexivity.
    + intros Hnone. destruct cookie as [sid|]; [|reflexivity].
      destruct (store s !! sid) as [sess|] eqn:Hs; [|reflexivity].
      destruct (expires sess <=? now s) eqn:Hexp; [reflexivity|].
      destruct (passport_user sess) as [i|] eqn:Hi; [|reflexivity].
      destruct (findById i (directory s)) as [user|] eqn:Hfind; [|reflexivity].
      exfalso. apply Hnone. exists user, sid, sess, i.
      apply Z.leb_gt in Hexp. repeat split; assumption.
  - intros (sid & sess & i & rest & -> & Hs & Hexp & Hi & Ho).
    unfold serve, load_session. rewrite Hs.
    replace (expires sess <=? now s) with false by (symmetry; apply Z.leb_gt; exact Hexp).
    unfold passport_session. cbn [req_session]. rewrite Hi.
    pose proof (deserialize_by_outages i (directory s)) as Hd. rewrite Ho in Hd.
    destruct (run (deserializeUser i) (directory s)) as [res d']. cbn [fst] in Hd. subst res.
    reflexivity.
Qed.

Lemma api_user_response_witness :
  (serve api_user (Some 7%nat) alice_server).1
  = Respond 200 (UserJson true 1 (JStr "Alice") (JStr "alice@uni.edu") (JStr "customer")) ∧
  (serve api_user None alice_server).1
  = Respond 401 (MessageJson false "Not authenticated") ∧
  (serve api_user (Some 7%nat) down_server).1 = Respond 500 (ErrorPage DbUnreachable).
Proof.
  split; [|split].
  - refine (proj1 (proj1 (proj2 (api_user_response (Some 7%nat) alice_server)) _) alice_row _).
    + intros (sid & sess & i & rest & _ & _ & _ & _ & H). discriminate H.
    + exists 7%nat, alice_session, 1. repeat split; vm_compute; reflexivity.
  - refine (proj2 (proj1 (proj2 (api_user_response None alice_server)) _) _).
    + intros (sid & sess & i & rest & H & _). discriminate H.
    + intros (user & sid & sess & i & H & _). discriminate H.
  - refine (proj2 (proj2 (api_user_response (Some 7%nat) down_server)) _).
    exists 7%nat, alice_session, 1, []. repeat split; vm_compute; reflexivity.
Defined.

(** C6 (as stated) fails: with the store down, a request presenting a
    session that is in the store, has not expired and whose user id the
    table holds is answered 500, not with the user; and a request
    presenting a session whose user id the table does not hold is answered
    500 as well, not 401. *)
Lemma api_user_outage_counterexample :
  valid_session (Some 7%nat) down_server alice_row ∧
  (serve api_user (Some 7%nat) down_server).1 = Respond 500 (ErrorPage DbUnreachable) ∧
  (serve api_user (Some 7%nat) down_server).1
    ≠ Respond 200 (UserJson true 1 (JStr "Alice") (JStr "alice@uni.edu") (JStr "customer")) ∧
  (¬ ∃ user, valid_session (Some 7%nat) stale_down_server user) ∧
  (serve api_user (Some 7%nat) stale_down_server).1 = Respond 500 (ErrorPage DbUnreachable) ∧
  (serve api_user (Some 7%nat) stale_down_server).1
    ≠ Respond 401 (MessageJson false "Not authenticated").
Proof.
  split.
  { exists 7%nat, alice_session, 1. repeat split; vm_compute; reflexivity. }
  split; [reflexivity|]. split; [discriminate|]. split.
  { intros (user & sid & sess & i & Hc & Hs & _ & Hi & Hf).
    injection Hc as <-. unfold stale_down_server in Hs. cbn in Hs.
    apply lookup_singleton_Some in Hs as [_ <-]. cbn in Hi. injection Hi as <-.
    discriminate Hf. }
  split; [reflexivity | discriminate].
Qed.

(** C10: a session whose stored user id matches no record.  While the
    directory answers, [deserializeUser] ends with [done(null, false)], no
    error, and GET /api/user presenting that session is answered 401
    [{success: false, message: 'Not authenticated'}], not by the error
    handler. *)
Theorem stale_session_unauthenticated sid sess i s :
  store s !! sid = Some sess → now s < expires sess → passport_user sess = Some i →
  findById i (directory s) = None → reachable (directory s) →
  (run (deserializeUser i) (directory s)).1 = inr (done None None) ∧
  validate sid s = inr None ∧
  (serve api_user (Some sid) s).1 = Respond 401 (MessageJson false "Not authenticated").
Proof.
  intros Hs Hexp Hi Hfind Hr.
  assert (Hv : validate sid s = inr None).
  { rewrite (validate_reachable _ _ Hr), Hs, Hi, Hfind.
    replace (expires sess <=? now s) with false by (symmetry; apply Z.leb_gt; exact Hexp).
    reflexivity. }
  split; [rewrite (deserialize_reachable _ _ Hr), Hfind; reflexivity|].
  split; [exact Hv|].
  rewrite (serve_api_user _ _ Hr), Hv. reflexivity.
Qed.

Lemma stale_session_unauthenticated_witness :
  (serve api_user (Some 7%nat) stale_server).1
  = Respond 401 (MessageJson false "Not authenticated").
Proof.
  refine (proj2 (proj2 (stale_session_unauthenticated 7%nat (mkSession 90000 (Some 5)) 5
                          stale_server _ _ _ _ _))).
  - reflexivity.
  - reflexivity.
  - reflexivity.
  - reflexivity.
  - reflexivity.
Defined.

Lemma findById_In user d :
  In user (users d) →
  ∃ found, findById (row_id user) d = Some found ∧ row_id found = row_id user.
Proof.
  intros Hin. unfold findById.
  assert (In user (List.filter (has_id (row_id user)) (users d))) as Hf.
  { apply filter_In. split; [exact Hin | now apply has_id_true]. }
  destruct (List.filter (has_id (row_id user)) (users d)) as [|v rest] eqn:E; [destruct Hf|].
  exists v. split; [reflexivity|].
  assert (In v (List.filter (has_id (row_id user)) (users d))) as Hv
    by (rewrite E; left; reflexivity).
  apply filter_In in Hv as [_ Hv]. now apply has_id_true.
Qed.

(** On an accepted profile the return route is [logged_in] for the user
    the verify callback passes to [done]. *)
Lemma return_route_logs_in profile user d' r s :
  run (verify profile) (directory s) = (inr (done None (Some user)), d') →
  auth_openid_return (Validated profile) r s = logged_in user r (with_directory d' s).
Proof.
  intros H. unfold auth_openid_return, authenticate, logged_in. rewrite H.
  destruct (login user r (with_directory d' s)); reflexivity.
Qed.

Lemma load_session_directory cookie s :
  directory (load_session cookie s).2 = directory s.
Proof.
  unfold load_session. destruct cookie as [sid|]; [|reflexivity].
  destruct (store s !! sid) as [sess|]; [|reflexivity].
  destruct (expires sess <=? now s); reflexivity.
Qed.

(** While the store answers, [passport.session()] lets the request go on
    and leaves the table and the clock alone. *)
Lemma passport_session_reachable r s :
  reachable (directory s) →
  ∃ r' s', passport_session r s = (inr r', s') ∧
    users (directory s') = users (directory s) ∧
    clock (directory s') = clock (directory s) ∧
    reachable (directory s').
Proof.
  intros Hr. unfold passport_session.
  destruct (req_session r) as [sess|]; [|eauto 10].
  destruct (passport_user sess) as [i|]; [|eauto 10].
  rewrite (deserialize_reachable _ _ Hr).
  destruct (findById i (directory s)); do 2 eexists; (split; [reflexivity|]);
    repeat split; reflexivity.
Qed.

(** Logging in stores the serialized user under the session id of the
    redirect; the directory is not involved. *)
Lemma logged_in_store user r s :
  ∃ sid,
    (logged_in user r s).1.1 = Redirect (FrontendDashboard sid) ∧
    store (end_response (logged_in user r s).1.2 (logged_in user r s).2) !! sid
      = Some (mkSession (now s + maxAge) (Some (serializeUser user))) ∧
    directory (end_response (logged_in user r s).1.2 (logged_in user r s).2) = directory s.
Proof.
  unfold logged_in, login, regenerate, generate, end_response. cbn.
  eexists. split; [reflexivity|]. split; [apply lookup_insert_eq | reflexivity].
Qed.

(** The session [establish] leaves in the store, and the directory it
    leaves behind. *)
Lemma establish_store user cookie s :
  reachable (directory s) →
  ∃ sid,
    (establish user cookie s).1 = Redirect (FrontendDashboard sid) ∧
    store (establish user cookie s).2 !! sid
      = Some (mkSession (now s + maxAge) (Some (serializeUser user))) ∧
    users (directory (establish user cookie s).2) = users (directory s) ∧
    clock (directory (establish user cookie s).2) = clock (directory s) ∧
    reachable (directory (establish user cookie s).2).
Proof.
  intros Hr. unfold establish, serve.
  pose proof (load_session_directory cookie s) as Hd.
  destruct (load_session cookie s) as [r s1]. cbn [snd] in Hd.
  rewrite <- Hd in Hr.
  destruct (passport_session_reachable r s1 Hr) as (r' & s2 & -> & Hu & Hc & Hr2).
  destruct (logged_in_store user r' s2) as (sid & Hresp & Hst & Hdir).
  destruct (logged_in user r' s2) as [[resp r''] s3]. cbn [fst snd] in *.
  exists sid. split; [exact Hresp|]. rewrite Hdir.
  unfold now in *. rewrite Hc in Hst. rewrite <- Hd.
  repeat split; assumption.
Qed.

(** A session id that is not in the store resolves to no user. *)
Lemma validate_absent sid s : store s !! sid = None → validate sid s = inr None.
Proof. intros H. unfold validate, load_session. rewrite H. reflexivity. Qed.

(** After the logout route the presented session id is not in the store. *)
Lemma destroy_store sid s :
  reachable (directory s) →
  (destroy sid s).1 = Redirect Frontend ∧ store (destroy sid s).2 !! sid = None.
Proof.
  intros Hr. unfold destroy, serve, load_session.
  destruct (store s !! sid) as [sess|] eqn:Hs.
  - destruct (expires sess <=? now s).
    + cbn. split; [reflexivity|].
      destruct (decide (sid = S (next_sid s))) as [->|H1]; [apply lookup_delete_eq|].
      rewrite lookup_delete_ne by congruence.
      destruct (decide (sid = next_sid s)) as [->|H2]; [apply lookup_delete_eq|].
      rewrite lookup_delete_ne, lookup_insert_ne by congruence.
      apply lookup_delete_eq.
    + unfold passport_session. cbn [req_session].
      destruct (passport_user sess) as [i|].
      * rewrite (deserialize_reachable _ _ Hr).
        destruct (findById i (directory s)); cbn; (split; [reflexivity|]);
          (destruct (decide (sid = next_sid s)) as [->|H1]; [apply lookup_delete_eq|]);
          rewrite lookup_delete_ne by congruence; apply lookup_delete_eq.
      * cbn. split; [reflexivity|].
        destruct (decide (sid = next_sid s)) as [->|H1]; [apply lookup_delete_eq|].
        rewrite lookup_delete_ne by congruence. apply lookup_delete_eq.
  - cbn. split; [reflexivity|].
    destruct (decide (sid = S (next_sid s))) as [->|H1]; [apply lookup_delete_eq|].
    rewrite lookup_delete_ne by congruence.
    destruct (decide (sid = next_sid s)) as [->|H2]; [apply lookup_delete_eq|].
    rewrite lookup_delete_ne, lookup_insert_ne by congruence. exact Hs.
Qed.

(** After the logout route the presented session id is not in the store,
    unless the lookup of the session's user was rejected. *)
Lemma destroy_store_answered sid s :
  ¬ deserialize_rejected (Some sid) s →
  (destroy sid s).1 = Redirect Frontend ∧ store (destroy sid s).2 !! sid = None.
Proof.
  intros Hnr. unfold destroy, serve, load_session.
  destruct (store s !! sid) as [sess|] eqn:Hs.
  - destruct (expires sess <=? now s) eqn:Hexp.
    + cbn. split; [reflexivity|].
      destruct (decide (sid = S (next_sid s))) as [->|H1]; [apply lookup_delete_eq|].
      rewrite lookup_delete_ne by congruence.
      destruct (decide (sid = next_sid s)) as [->|H2]; [apply lookup_delete_eq|].
      rewrite lookup_delete_ne, lookup_insert_ne by congruence.
      apply lookup_delete_eq.
    + unfold passport_session. cbn [req_session].
      destruct (passport_user sess) as [i|] eqn:Hi.
      * pose proof (deserialize_by_outages i (directory s)) as Hd.
        destruct (outages (directory s)) as [|[|] rest] eqn:Ho.
        2:{ exfalso. apply Hnr. exists sid, sess, i, rest. apply Z.leb_gt in Hexp.
            repeat split; assumption. }
        all: destruct (run (deserializeUser i) (directory s)) as [res d'];
          cbn [fst] in Hd; subst res;
          destruct (findById i (directory s)); cbn; (split; [reflexivity|]);
          (destruct (decide (sid = next_sid s)) as [->|H1]; [apply lookup_delete_eq|]);
          rewrite lookup_delete_ne by congruence; apply lookup_delete_eq.
      * cbn. split; [reflexivity|].
        destruct (decide (sid = next_sid s)) as [->|H1]; [apply lookup_delete_eq|].
        rewrite lookup_delete_ne by congruence. apply lookup_delete_eq.
  - cbn. split; [reflexivity|].
    destruct (decide (sid = S (next_sid s))) as [->|H1]; [apply lookup_delete_eq|].
    rewrite lookup_delete_ne by congruence.
    destruct (decide (sid = next_sid s)) as [->|H2]; [apply lookup_delete_eq|].
    rewrite lookup_delete_ne, lookup_insert_ne by congruence. exact Hs.
Qed.

(** C7 (as amended): the session round trip.  While the directory
    answers, logging in a user of the directory stores that user's id
    under a new session id, and [validate] on this session id, at any time
    before the session's expiry, returns a user with the same id: the one
    [deserializeUser] finds for the serialized id.  After [destroy] on a
    session id, [validate] on that id returns no user, unless the lookup
    of the session's user was rejected during the logout request: then the
    request is answered by the error handler (500), the logout handler is
    not run, and the session stays in the store with its user id and
    resolves to the user again once the store answers. *)
Theorem session_round_trip :
  (∀ user cookie s dt,
     In user (users (directory s)) → reachable (directory s) → 0 ≤ dt < maxAge →
     ∃ sid found,
       (establish user cookie s).1 = Redirect (FrontendDashboard sid) ∧
       store (establish user cookie s).2 !! sid
         = Some (mkSession (now s + maxAge) (Some (serializeUser user))) ∧
       validate sid (later dt (establish user cookie s).2) = inr (Some found) ∧
       (run (deserializeUser (serializeUser user)) (directory s)).1
         = inr (done None (Some found)) ∧
       row_id found = row_id user) ∧
  (∀ sid s,
     ¬ deserialize_rejected (Some sid) s →
     (destroy sid s).1 = Redirect Frontend ∧
     store (destroy sid s).2 !! sid = None ∧
     validate sid (destroy sid s).2 = inr None) ∧
  (∀ sid sess i rest s,
     store s !! sid = Some sess → now s < expires sess → passport_user sess = Some i →
     outages (directory s) = true :: rest →
     (destroy sid s).1 = Respond 500 (ErrorPage DbUnreachable) ∧
     store (destroy sid s).2 !! sid = Some (mkSession (now s + maxAge) (Some i)) ∧
     (rest = [] → validate sid (destroy sid s).2 = inr (findById i (directory s)))).
Proof.
  split; [|split].
  - intros user cookie s dt Hin Hr Hdt.
    destruct (establish_store user cookie s Hr) as (sid & Hresp & Hst & Hus & Hck & Hr1).
    destruct (findById_In user (directory s) Hin) as (found & Hf & Hid).
    exists sid, found. split; [exact Hresp|]. split; [exact Hst|].
    split; [|split; [|exact Hid]].
    2:{ rewrite (deserialize_reachable _ _ Hr). unfold serializeUser. rewrite Hf.
        reflexivity. }
    set (s1 := (establish user cookie s).2) in *.
    assert (Hr' : reachable (directory (later dt s1))) by exact Hr1.
    rewrite (validate_reachable _ _ Hr').
    change (store (later dt s1)) with (store s1). rewrite Hst. cbn [expires passport_user].
    change (now (later dt s1)) with (clock (directory s1) + dt). rewrite Hck.
    replace (now s + maxAge <=? clock (directory s) + dt) with false
      by (symmetry; apply Z.leb_gt; unfold now; lia).
    change (findById (serializeUser user) (directory (later dt s1)))
      with (head (List.filter (has_id (row_id user)) (users (directory s1)))).
    rewrite Hus. unfold serializeUser, findById in *. rewrite Hf. reflexivity.
  - intros sid s Hnr. destruct (destroy_store_answered sid s Hnr) as [H1 H2].
    split; [exact H1|]. split; [exact H2|]. now apply validate_absent.
  - intros sid sess i rest s Hs Hexp Hi Hout.
    unfold destroy, serve, load_session. rewrite Hs.
    replace (expires sess <=? now s) with false by (symmetry; apply Z.leb_gt; exact Hexp).
    unfold passport_session. cbn [req_session]. rewrite Hi.
    unfold deserializeUser. cbn -[maxAge]. unfold db_query. rewrite Hout. cbn -[maxAge].
    split; [reflexivity|]. split; [rewrite Hi; apply lookup_insert_eq|].
    intros ->. rewrite validate_reachable by reflexivity. cbn -[maxAge].
    rewrite lookup_insert_eq. cbn -[maxAge]. rewrite Hi.
    replace (clock (directory s) + maxAge <=? clock (directory s)) with false
      by (symmetry; apply Z.leb_gt; unfold maxAge; lia).
    reflexivity.
Qed.

Lemma session_round_trip_witness :
  (∃ sid found,
     (establish alice_row (Some 7%nat) alice_server).1 = Redirect (FrontendDashboard sid) ∧
     validate sid (later 3600000 (establish alice_row (Some 7%nat) alice_server).2)
       = inr (Some found) ∧
     row_id found = 1) ∧
  validate 7%nat (destroy 7%nat alice_server).2 = inr None ∧
  (destroy 7%nat down_server).1 = Respond 500 (ErrorPage DbUnreachable).
Proof.
  split; [|split].
  - destruct (proj1 session_round_trip alice_row (Some 7%nat) alice_server 3600000)
      as (sid & found & Hresp & _ & Hv & _ & Hid).
    + left. reflexivity.
    + reflexivity.
    + unfold maxAge. lia.
    + exists sid, found. split; [exact Hresp|]. split; [exact Hv | exact Hid].
  - refine (proj2 (proj2 (proj1 (proj2 session_round_trip) 7%nat alice_server _))).
    intros (sid & sess & i & rest & _ & _ & _ & _ & H). discriminate H.
  - refine (proj1 (proj2 (proj2 session_round_trip) 7%nat alice_session 1 [] down_server
                     _ _ _ _)); reflexivity.
Defined.

(** C7 (as stated) fails: with the store down, the logout request for a
    session that carries a user id is answered 500, and [validate] on the
    session id afterwards, the store answering again, returns the user. *)
Lemma logout_outage_counterexample :
  (destroy 7%nat down_server).1 = Respond 500 (ErrorPage DbUnreachable) ∧
  validate 7%nat (destroy 7%nat down_server).2 = inr (Some alice_row) ∧
  validate 7%nat (destroy 7%nat down_server).2 ≠ inr None.
Proof.
  split; [reflexivity|]. split; [reflexivity | discriminate].
Qed.

(* ===================================================================== *)
(** ** Further properties of the verify callback *)
(* ===================================================================== *)

(** What a run of the callback does to the table, whatever the profile and
    the outages: nothing, one record appended after a lookup that found
    none, or one update by the id of the first record found. *)
Lemma verify_effect profile d :
  users (run (verify profile) d).2 = users d ∨
  (accepted profile ∧ records_of (oid profile) d = [] ∧
   ∃ r, users (run (verify profile) d).2 = users d ++ [r] ∧
        r = mkRow (row_id r) (oid profile) (email_of profile) (name_of profile)
                  (default_role (cfg d)) (clock d) (clock d)) ∨
  (accepted profile ∧
   ∃ u rest, records_of (oid profile) d = u :: rest ∧
     users (run (verify profile) d).2
     = updated (name_of profile) (email_of profile) (clock d) (row_id u) (users d)).
Proof.
  destruct (accepted_dec profile) as [Hacc|Hrej].
  - pose proof (verify_outcome profile d Hacc) as Hout.
    inversion Hout as
      [err d' Hu Hl | r d' Hrec Hr Hu Hl | err d' Hrec Hu Hl
      | u rest d' Hrec Hdiff Hu Hl | u rest err d' Hrec Hdiff Hu Hl
      | u rest d' Hrec Hn He Hu Hl]; try (left; exact Hu).
    + right; left. split; [exact Hacc|]. split; [exact Hrec|]. exists r. split; assumption.
    + right; right. split; [exact Hacc|]. exists u, rest. split; assumption.
  - rewrite (verify_rejects _ Hrej). left. reflexivity.
Qed.


(** X1: first resolution of an identity.  With a usable subject id and
    email, a store that answers and no record for the subject id, the
    callback appends one record and returns it: the next id of the
    sequence, the subject id, email and name of the identity, the default
    role, and the current time as both timestamps. *)
Theorem resolve_creates_record profile d :
  accepted profile → reachable d → records_of (oid profile) d = [] →
  let r := mkRow (next_id d) (oid profile) (email_of profile) (name_of profile)
                 (default_role (cfg d)) (clock d) (clock d) in
  (run (verify profile) d).1 = inr (done None (Some r)) ∧
  users (run (verify profile) d).2 = users d ++ [r] ∧
  next_id (run (verify profile) d).2 = next_id d + 1.
Proof.
  intros Hacc Hr Hnone r. rewrite (verify_reachable _ _ Hacc Hr). cbv zeta.
  rewrite Hnone. destruct Hacc as [Ho He].
  assert (new_row d (oid profile) (email_of profile) (name_of profile) = r) as ->.
  { unfold new_row, r.
    rewrite !pg_param_truthy by (assumption || apply name_of_truthy). reflexivity. }
  repeat split; reflexivity.
Qed.

Lemma resolve_creates_record_witness :
  (run (verify bob) alice_db).1
  = inr (done None (Some (mkRow 2 (JStr "oid-bob") (JStr "bob@uni.edu")
                                (JStr "UniEats User") (JStr "customer") 2000 2000))).
Proof.
  refine (proj1 (resolve_creates_record bob alice_db _ _ _)).
  - split; reflexivity.
  - reflexivity.
  - reflexivity.
Defined.

(** X2: a record that is up to date.  When the first record found for the
    subject id already has the identity's name and email, the callback
    sends the lookup and nothing else, whatever the outages: it returns
    that record as it is, or the error of the lookup, and the table,
    timestamps included, is as it was. *)
Theorem resolve_leaves_current_record profile d u rest :
  accepted profile → records_of (oid profile) d = u :: rest →
  row_name u = name_of profile → row_email u = email_of profile →
  users (run (verify profile) d).2 = users d ∧
  ((run (verify profile) d).1 = inr (done None (Some u)) ∧
   qlog (run (verify profile) d).2 = (SelectByOid (oid profile), None) :: qlog d
   ∨ ∃ err, (run (verify profile) d).1 = inr (done (Some err) None) ∧
            qlog (run (verify profile) d).2
            = (SelectByOid (oid profile), Some err) :: qlog d).
Proof.
  intros Hacc Hrec Hn He.
  pose proof (verify_outcome profile d Hacc) as Hout.
  inversion Hout as
    [err d' Hu Hl | r d' Hrec' Hr Hu Hl | err d' Hrec' Hu Hl
    | u' rest' d' Hrec' Hdiff Hu Hl | u' rest' err d' Hrec' Hdiff Hu Hl
    | u' rest' d' Hrec' Hn' He' Hu Hl];
    try (rewrite Hrec in Hrec'; try discriminate; injection Hrec' as <- <-).
  - split; [exact Hu|]. right. eauto.
  - destruct Hdiff; contradiction.
  - destruct Hdiff; contradiction.
  - split; [exact Hu|]. left. split; [reflexivity | exact Hl].
Qed.

Lemma resolve_leaves_current_record_witness :
  users (run (verify alice) alice_db).2 = users alice_db.
Proof.
  refine (proj1 (resolve_leaves_current_record alice alice_db alice_row [] _ _ _ _)).
  - split; reflexivity.
  - reflexivity.
  - reflexivity.
  - reflexivity.
Defined.


(** X4: the statements of one run.  A rejected profile sends none.  An
    accepted one sends the lookup by subject id first; if the lookup is
    answered it sends at most one more statement, a write (the insert, or
    the update by id, with the identity's values), and nothing after it. *)
Theorem resolve_statements profile d :
  ∃ sent,
    qlog (run (verify profile) d).2 = sent ++ qlog d ∧
    (sent = [] ∧ ¬ accepted profile
     ∨ accepted profile ∧ (∃ o, sent = [(SelectByOid (oid profile), o)])
     ∨ accepted profile ∧
       ∃ w o, sent = [(w, o); (SelectByOid (oid profile), None)] ∧ is_write w = true ∧
         (w = InsertUser (oid profile) (email_of profile) (name_of profile) ∨
          ∃ i, w = UpdateUser (name_of profile) (email_of profile) i)).
Proof.
  destruct (accepted_dec profile) as [Hacc|Hrej].
  - pose proof (verify_outcome profile d Hacc) as Hout.
    inversion Hout as
      [err d' Hu Hl | r d' Hrec Hr Hu Hl | err d' Hrec Hu Hl
      | u rest d' Hrec Hdiff Hu Hl | u rest err d' Hrec Hdiff Hu Hl
      | u rest d' Hrec Hn He Hu Hl];
      match type of Hl with
      | _ = ?a :: ?b :: qlog d => exists [a; b]
      | _ = ?a :: qlog d => exists [a]
      end; (split; [exact Hl|]); right;
      try (left; split; [exact Hacc|]; eauto; fail);
      right; (split; [exact Hacc|]); do 2 eexists; (split; [reflexivity|]);
      (split; [reflexivity|]); eauto.
  - rewrite (verify_rejects _ Hrej). exists []. split; [reflexivity|]. left.
    split; [reflexivity|]. intros [Ho He]. destruct Hrej; congruence.
Qed.

Lemma email_of_truthy_iff profile :
  truthy (email_of profile) = true ↔
  truthy (upn profile) = true ∨ truthy (json_email profile) = true ∨
  truthy (first_email profile) = true.
Proof.
  unfold email_of, js_or.
  destruct (truthy (upn profile)) eqn:E1.
  - rewrite E1. tauto.
  - destruct (truthy (json_email profile)) eqn:E2.
    + rewrite E2. tauto.
    + split; [auto|]. intros [H|[H|H]]; [discriminate|discriminate|exact H].
Qed.

(** X5: the guard of the callback.  A profile is let through exactly when
    its subject id is usable and at least one of [upn], the embedded
    [email] claim and the first [emails] entry is; and the callback sends
    a statement to the directory exactly for the profiles it lets through. *)
Theorem guard_accepts_iff profile :
  (accepted profile ↔
   truthy (oid profile) = true ∧
   (truthy (upn profile) = true ∨ truthy (json_email profile) = true ∨
    truthy (first_email profile) = true)) ∧
  (∀ d, accepted profile ↔ qlog (run (verify profile) d).2 ≠ qlog d).
Proof.
  split.
  - unfold accepted. rewrite email_of_truthy_iff. reflexivity.
  - intros d. split.
    + intros Hacc Heq.
      pose proof (verify_outcome profile d Hacc) as Hout.
      apply (f_equal (@length _)) in Heq.
      inversion Hout as
        [err d' Hu Hl | r d' Hrec Hr Hu Hl | err d' Hrec Hu Hl
        | u rest d' Hrec Hdiff Hu Hl | u rest err d' Hrec Hdiff Hu Hl
        | u rest d' Hrec Hn He Hu Hl]; rewrite Hl in Heq; simpl in Heq; lia.
    + intros Hne. destruct (accepted_dec profile) as [Hacc|Hrej]; [exact Hacc|].
      exfalso. apply Hne. rewrite (verify_rejects _ Hrej). reflexivity.
Qed.

(** X6: how the callback ends.  It never throws: whatever the profile and
    the outages it calls [done] with an error and no user, the table being
    as it was, or with no error and a user, who is a record of the table. *)
Theorem verify_error_or_user profile d :
  (∃ err, (run (verify profile) d).1 = inr (done (Some err) None) ∧
          users (run (verify profile) d).2 = users d) ∨
  (∃ user, (run (verify profile) d).1 = inr (done None (Some user)) ∧
           In user (users (run (verify profile) d).2)).
Proof.
  destruct (accepted_dec profile) as [Hacc|Hrej].
  - pose proof (verify_outcome profile d Hacc) as Hout.
    inversion Hout as
      [err d' Hu Hl | r d' Hrec Hr Hu Hl | err d' Hrec Hu Hl
      | u rest d' Hrec Hdiff Hu Hl | u rest err d' Hrec Hdiff Hu Hl
      | u rest d' Hrec Hn He Hu Hl]; try (left; eauto; fail).
    + right. exists r. split; [reflexivity|]. rewrite Hu. apply in_app_iff.
      right. left. reflexivity.
    + right.
      assert (In u (users d)) as Hin.
      { assert (In u (records_of (oid profile) d)) as Hmem by (rewrite Hrec; left; reflexivity).
        apply filter_In in Hmem. apply Hmem. }
      destruct (head_filter_updated (name_of profile) (email_of profile) (clock d) u _ Hin)
        as (v & Hv & _).
      rewrite Hu, Hv. eexists. split; [reflexivity|].
      apply head_In, filter_In in Hv. apply Hv.
    + right. exists u. split; [reflexivity|]. rewrite Hu.
      assert (In u (records_of (oid profile) d)) as Hmem by (rewrite Hrec; left; reflexivity).
      apply filter_In in Hmem. apply Hmem.
  - rewrite (verify_rejects _ Hrej). left. eauto.
Qed.

(** X7: [deserializeUser] reads and never throws.  Whatever the id and
    the outages it sends one lookup by id and leaves the table as it was;
    it calls [done] with the error of the lookup and no user, or with no
    error and the first record that has the id, if there is one. *)
Theorem deserialize_read_only i d :
  users (run (deserializeUser i) d).2 = users d ∧
  ((∃ err, (run (deserializeUser i) d).1 = inr (done (Some err) None) ∧
           qlog (run (deserializeUser i) d).2 = (SelectById i, Some err) :: qlog d) ∨
   ((run (deserializeUser i) d).1 = inr (done None (findById i d)) ∧
    qlog (run (deserializeUser i) d).2 = (SelectById i, None) :: qlog d)).
Proof.
  unfold deserializeUser. cbn -[db_query].
  destruct (db_query_cases (SelectById i) d)
    as [(err & H1 & H2 & H3 & _)|(rows & dm & H1 & Hu & _ & _ & _ & _ & Ha & Hl)];
    destruct (db_query (SelectById i) d) as [r1 d1]; cbn [fst snd] in *; subst r1; cbn.
  - split; [exact H2|]. left. eauto.
  - cbn in Ha. injection Ha as Hrows Hd1.
    split; [rewrite <- Hd1; exact Hu|]. right. split; [|exact Hl].
    unfold findById. rewrite <- Hu, Hrows. reflexivity.
Qed.

(* ===================================================================== *)
(** ** The table over many resolutions *)
(* ===================================================================== *)

(** A property of the directory that every statement keeps is kept by
    every async body. *)
Lemma run_invariant {A} (P : db → Prop) :
  (∀ q d, P d → P (db_query q d).2) →
  ∀ (p : prog A) d, P d → P (run p d).2.
Proof.
  intros Hq. induction p as [a|e|q k IH]; intros d Hd; cbn; try exact Hd.
  specialize (Hq q d Hd). destruct (db_query q d) as [r d1]. apply IH. exact Hq.
Qed.

Lemma updated_ids n e t i l :
  List.map row_id (updated n e t i l) = List.map row_id l.
Proof.
  unfold updated. induction l as [|x l IH]; simpl; [reflexivity|].
  f_equal; [|exact IH]. destruct (has_id i x); reflexivity.
Qed.

Lemma updated_oids n e t i l :
  List.map row_azure_oid (updated n e t i l) = List.map row_azure_oid l.
Proof.
  unfold updated. induction l as [|x l IH]; simpl; [reflexivity|].
  f_equal; [|exact IH]. destruct (has_id i x); reflexivity.
Qed.

(** Every statement keeps the ids distinct and below the sequence. *)
Lemma apply_query_ids q d :
  id_injective d ∧ ids_below d →
  id_injective (apply_query q d).2 ∧ ids_below (apply_query q d).2.
Proof.
  intros [Hnd Hlt]. unfold id_injective, ids_below in *.
  destruct q as [o|o e n|n e i|i]; cbn [apply_query]; try (split; assumption).
  - destruct (oid_unique (cfg d) && existsb (has_oid o) (users d)); cbn [snd users next_id].
    + split; [exact Hnd|]. intros r Hr. specialize (Hlt r Hr). lia.
    + split.
      * rewrite List.map_app. cbn. apply NoDup_app. split; [exact Hnd|].
        split; [|apply NoDup_singleton].
        intros x Hx Hx'. apply list_elem_of_singleton in Hx'. subst x.
        apply list_elem_of_In, in_map_iff in Hx as (r & Hr & Hin).
        specialize (Hlt r Hin). lia.
      * intros r [Hr|[<-|[]]]%in_app_iff; [specialize (Hlt r Hr); lia | cbn; lia].
  - cbn [snd users next_id]. fold (updated n e (clock d) i (users d)). split.
    + rewrite updated_ids. exact Hnd.
    + intros r (r0 & <- & Hr0)%in_map_iff. specialize (Hlt r0 Hr0).
      destruct (has_id i r0); exact Hlt.
Qed.

Lemma db_query_ids q d :
  id_injective d ∧ ids_below d →
  id_injective (db_query q d).2 ∧ ids_below (db_query q d).2.
Proof.
  intros H. unfold db_query. destruct (outages d) as [|[|] rest].
  - now apply apply_query_ids.
  - exact H.
  - apply apply_query_ids. exact H.
Qed.

Lemma verify_oids_distinct profile d :
  oid_injective d → oid_injective (run (verify profile) d).2.
Proof.
  intros Hinj. unfold oid_injective in *.
  destruct (verify_effect profile d)
    as [H|[([Ho _] & Hnone & r & H & Hr)|(_ & u & rest & _ & H)]]; rewrite H.
  - exact Hinj.
  - rewrite List.map_app. cbn. rewrite Hr. cbn.
    apply NoDup_app. split; [exact Hinj|]. split; [|apply NoDup_singleton].
    intros x Hx Hx'. apply list_elem_of_singleton in Hx'. subst x.
    apply list_elem_of_In in Hx. exact (records_none_not_in _ _ Ho Hnone Hx).
  - rewrite updated_oids. exact Hinj.
Qed.

Lemma verify_well_formed profile d :
  well_formed d → well_formed (run (verify profile) d).2.
Proof.
  intros (H1 & H2 & H3).
  destruct (run_invariant (λ d, id_injective d ∧ ids_below d) db_query_ids
              (verify profile) d (conj H1 H2)) as [K1 K2].
  split; [exact K1|]. split; [exact K2|]. now apply verify_oids_distinct.
Qed.



Lemma NoDup_of_map {A B} (f : A → B) l : NoDup (List.map f l) → NoDup l.
Proof.
  induction l as [|x l IH]; simpl; intros H; [constructor|].
  apply NoDup_cons in H as [Hx H]. apply NoDup_cons. split; [|auto].
  intros Hin. apply Hx, list_elem_of_In, in_map, list_elem_of_In, Hin.
Qed.

Lemma NoDup_of_filter {A} (f : A → bool) l : NoDup l → NoDup (List.filter f l).
Proof.
  induction l as [|x l IH]; simpl; intros H; [constructor|].
  apply NoDup_cons in H as [Hx H]. destruct (f x); [|auto].
  apply NoDup_cons. split; [|auto].
  intros Hin. apply Hx, list_elem_of_In. apply list_elem_of_In, filter_In in Hin. apply Hin.
Qed.

Lemma NoDup_users d : oid_injective d → NoDup (users d).
Proof. unfold oid_injective. apply NoDup_of_map. Qed.

(** With distinct subject ids a lookup finds at most one record. *)
Lemma records_of_single o d u rest :
  oid_injective d → records_of o d = u :: rest → rest = [].
Proof.
  intros Hinj Hrec. destruct rest as [|v rest]; [reflexivity|]. exfalso.
  assert (Hnd : NoDup (records_of o d)) by (apply NoDup_of_filter, NoDup_users, Hinj).
  assert (Hu : In u (records_of o d)) by (rewrite Hrec; left; reflexivity).
  assert (Hv : In v (records_of o d)) by (rewrite Hrec; right; left; reflexivity).
  apply filter_In in Hu as [Hu Huo], Hv as [Hv Hvo].
  apply sql_eq_true in Huo, Hvo.
  assert (u = v)
    by exact (NoDup_map_inj row_azure_oid (users d) u v Hinj Hu Hv (eq_trans Huo (eq_sym Hvo))).
  subst v. rewrite Hrec in Hnd. apply NoDup_cons in Hnd as [Hnot _].
  apply Hnot. left.
Qed.

Lemma findById_unique d u :
  id_injective d → In u (users d) → findById (row_id u) d = Some u.
Proof.
  intros Hid Hin. destruct (findById_In u d Hin) as (v & Hv & Hvid).
  rewrite Hv. f_equal.
  apply head_In, filter_In in Hv as [Hvin _].
  exact (NoDup_map_inj row_id (users d) v u Hid Hvin Hin Hvid).
Qed.

(** A successful resolution on a well-formed table: the user returned is
    the one record held for the subject id afterwards, carries the
    identity's email and name, and keeps the stable fields of the record
    held before, if there was one. *)
Lemma verify_success profile d :
  accepted profile → reachable d → well_formed d →
  ∃ user,
    (run (verify profile) d).1 = inr (done None (Some user)) ∧
    records_of (oid profile) (run (verify profile) d).2 = [user] ∧
    In user (users (run (verify profile) d).2) ∧
    row_azure_oid user = oid profile ∧
    row_email user = email_of profile ∧ row_name user = name_of profile ∧
    reachable (run (verify profile) d).2 ∧
    clock (run (verify profile) d).2 = clock d ∧
    (∀ u0, In u0 (records_of (oid profile) d) → stable user = stable u0).
Proof.
  intros Hacc Hr (Hid & Hlt & Hoid). pose proof Hacc as [Ho He].
  pose proof (name_of_truthy profile) as Hn.
  rewrite (verify_reachable _ _ Hacc Hr). cbv zeta.
  destruct (records_of (oid profile) d) as [|u rest] eqn:Hrec.
  - set (r := new_row d (oid profile) (email_of profile) (name_of profile)).
    exists r. cbn [fst snd users outages clock]. split; [reflexivity|].
    assert (Hro : row_azure_oid r = oid profile)
      by (unfold r; cbn; now apply pg_param_truthy).
    split; [|split; [apply in_app_iff; right; left; reflexivity|]].
    + unfold records_of in *. cbn [users]. rewrite List.filter_app, Hrec. cbn -[r].
      replace (has_oid (oid profile) r) with true; [reflexivity|].
      symmetry. unfold has_oid. rewrite Hro.
      destruct (truthy_str _ Ho) as [s ->]. apply sql_eq_refl.
    + split; [exact Hro|].
      split; [unfold r; cbn; now apply pg_param_truthy|].
      split; [unfold r; cbn; now apply pg_param_truthy|].
      split; [reflexivity|]. split; [reflexivity|]. intros u0 [].
  - assert (rest = []) as -> by (eapply records_of_single; eassumption).
    assert (In u (users d) ∧ row_azure_oid u = oid profile) as [Hin Huo].
    { assert (In u (records_of (oid profile) d)) as Hm by (rewrite Hrec; left; reflexivity).
      apply filter_In in Hm as [Hm Hs]. split; [exact Hm | now apply sql_eq_true]. }
    destruct (strict_ne (row_name u) (name_of profile)
              || strict_ne (row_email u) (email_of profile)) eqn:Hne.
    + fold (updated (name_of profile) (email_of profile) (clock d) (row_id u) (users d)).
      destruct (head_filter_updated (name_of profile) (email_of profile) (clock d) u _ Hin)
        as (v & Hv & Hv').
      assert (v = u) as ->.
      { apply head_In, filter_In in Hv' as [Hvin Hvid]. apply has_id_true in Hvid.
        exact (NoDup_map_inj row_id (users d) v u Hid Hvin Hin Hvid). }
      set (u' := set_profile (name_of profile) (email_of profile) (clock d) u) in *.
      exists u'. cbn [fst snd users outages clock]. rewrite Hv.
      split; [reflexivity|]. split; [|split].
      * unfold records_of. cbn [users]. rewrite records_of_updated.
        fold (records_of (oid profile) d). rewrite Hrec.
        unfold updated. cbn [List.map]. unfold has_id at 1. rewrite Z.eqb_refl. reflexivity.
      * apply head_In, filter_In in Hv. apply Hv.
      * split; [exact Huo|].
        split; [unfold u'; cbn; now apply pg_param_truthy|].
        split; [unfold u'; cbn; now apply pg_param_truthy|].
        split; [reflexivity|]. split; [reflexivity|].
        intros u0 [<-|[]]. reflexivity.
    + apply orb_false_iff in Hne as [Hne1 Hne2]. apply strict_ne_false in Hne1, Hne2.
      exists u. cbn [fst snd users outages clock]. split; [reflexivity|].
      split; [exact Hrec|]. split; [exact Hin|]. split; [exact Huo|].
      split; [exact Hne2|]. split; [exact Hne1|]. split; [reflexivity|].
      split; [reflexivity|]. intros u0 [<-|[]]. reflexivity.
Qed.

(** X9: two identities for one subject id, one after the other.  On a
    well-formed table and while the store answers, both runs succeed; the
    second returns the record of the first with its id, subject id, role
    and creation time, and with the email and name of the second identity;
    it is the one record held for the subject id. *)
Theorem resolve_last_identity_wins profile1 profile2 dt d :
  accepted profile1 → accepted profile2 → oid profile2 = oid profile1 →
  reachable d → well_formed d →
  ∃ user1 user2 d1,
    run (verify profile1) d = (inr (done None (Some user1)), d1) ∧
    (run (verify profile2) (advance dt d1)).1 = inr (done None (Some user2)) ∧
    stable user2 = stable user1 ∧
    row_email user2 = email_of profile2 ∧ row_name user2 = name_of profile2 ∧
    records_of (oid profile1) (run (verify profile2) (advance dt d1)).2 = [user2].
Proof.
  intros Hacc1 Hacc2 Hoid Hr Hwf.
  destruct (verify_success profile1 d Hacc1 Hr Hwf)
    as (u1 & Hres1 & Hrec1 & Hin1 & _ & _ & _ & Hr1 & _ & _).
  pose proof (verify_well_formed profile1 d Hwf) as Hwf1.
  destruct (run (verify profile1) d) as [res1 d1]. cbn [fst snd] in *. subst res1.
  destruct (verify_success profile2 (advance dt d1) Hacc2 Hr1 Hwf1)
    as (u2 & Hres2 & Hrec2 & _ & _ & He2 & Hn2 & _ & _ & Hst).
  exists u1, u2, d1. split; [reflexivity|]. split; [exact Hres2|].
  rewrite Hoid in Hrec2, Hst. split; [|repeat split; assumption].
  apply Hst. change (records_of (oid profile1) (advance dt d1))
    with (records_of (oid profile1) d1). rewrite Hrec1. left. reflexivity.
Qed.

Lemma resolve_last_identity_wins_witness :
  ∃ user2,
    (run (verify alice_renamed) (advance 500 (run (verify alice) empty_db).2)).1
      = inr (done None (Some user2)) ∧
    row_id user2 = 1 ∧ row_name user2 = JStr "Alice A.".
Proof.
  destruct (resolve_last_identity_wins alice alice_renamed 500 empty_db)
    as (u1 & u2 & d1 & H1 & H2 & H3 & _ & H5 & _).
  - split; reflexivity.
  - split; reflexivity.
  - reflexivity.
  - reflexivity.
  - split; [constructor|]. split; [intros r []|constructor].
  - exists u2. rewrite H1. split; [exact H2|]. split; [|exact H5].
    vm_compute in H1. injection H1 as <- _. injection H3 as -> _ _ _. reflexivity.
Defined.

(* ===================================================================== *)
(** ** Further properties of the routes *)
(* ===================================================================== *)

(** While the store answers, [passport.session()] lets the request go on
    with the user the session resolves to and changes nothing but the
    journal of the directory. *)
Lemma passport_session_frame r s :
  reachable (directory s) →
  ∃ r' s', passport_session r s = (inr r', s') ∧
    users (directory s') = users (directory s) ∧
    next_id (directory s') = next_id (directory s) ∧
    clock (directory s') = clock (directory s) ∧
    reachable (directory s') ∧
    store s' = store s ∧ next_sid s' = next_sid s.
Proof.
  intros Hr. unfold passport_session.
  destruct (req_session r) as [sess|]; [|eauto 12].
  destruct (passport_user sess) as [i|]; [|eauto 12].
  rewrite (deserialize_reachable _ _ Hr).
  destruct (findById i (directory s)); do 2 eexists; (split; [reflexivity|]);
    repeat split; reflexivity.
Qed.

Lemma load_session_fresh cookie s :
  directory (load_session cookie s).2 = directory s ∧
  req_user (load_session cookie s).1 = None.
Proof.
  unfold load_session. destruct cookie as [sid|]; [|split; reflexivity].
  destruct (store s !! sid) as [sess|]; [|split; reflexivity].
  destruct (expires sess <=? now s); split; reflexivity.
Qed.

(** X10: the answers of the return route.  A rejected handshake is
    answered with the redirect to the login-failed page and changes
    nothing.  For a validated profile the route never answers with that
    redirect: either the callback ended with an error, which is answered
    500 with no session established and no record changed, or it ended
    with a user of the directory, who is logged in under the session id
    that the redirect to the dashboard carries. *)
Theorem return_route_answers c r s :
  match c with
  | IssuerRejected =>
      auth_openid_return c r s = (Redirect (Path "/login-failed"), r, s)
  | Validated profile =>
      (auth_openid_return c r s).1.1 ≠ Redirect (Path "/login-failed") ∧
      ((∃ err,
          (auth_openid_return c r s).1.1 = next_error err ∧
          (auth_openid_return c r s).1.2 = r ∧
          store (auth_openid_return c r s).2 = store s ∧
          users (directory (auth_openid_return c r s).2) = users (directory s))
       ∨
       (∃ user,
          (auth_openid_return c r s).1.1
            = Redirect (FrontendDashboard (sessionID (auth_openid_return c r s).1.2)) ∧
          req_user (auth_openid_return c r s).1.2 = Some user ∧
          In user (users (directory (auth_openid_return c r s).2)) ∧
          store (auth_openid_return c r s).2 !! sessionID (auth_openid_return c r s).1.2
            = Some (mkSession (now (auth_openid_return c r s).2 + maxAge)
                              (Some (serializeUser user)))))
  end.
Proof.
  destruct c as [|profile]; [reflexivity|].
  assert (Hcases :
    (∃ err, (run (verify profile) (directory s)).1 = inr (done (Some err) None) ∧
            users (run (verify profile) (directory s)).2 = users (directory s)) ∨
    (∃ user, (run (verify profile) (directory s)).1 = inr (done None (Some user)) ∧
             In user (users (run (verify profile) (directory s)).2))).
  { destruct (accepted_dec profile) as [Hacc|Hrej].
    - pose proof (verify_outcome profile (directory s) Hacc) as Hout.
      inversion Hout as
        [err d' Hu Hl | r0 d' Hrec Hr Hu Hl | err d' Hrec Hu Hl
        | u rest d' Hrec Hdiff Hu Hl | u rest err d' Hrec Hdiff Hu Hl
        | u rest d' Hrec Hn He Hu Hl]; try (left; eauto; fail).
      + right. exists r0. split; [reflexivity|]. rewrite Hu. apply in_app_iff.
        right. left. reflexivity.
      + right.
        assert (In u (users (directory s))) as Hin.
        { assert (In u (records_of (oid profile) (directory s))) as Hm
            by (rewrite Hrec; left; reflexivity).
          apply filter_In in Hm. apply Hm. }
        destruct (head_filter_updated (name_of profile) (email_of profile)
                    (clock (directory s)) u _ Hin) as (v & Hv & _).
        rewrite Hu, Hv. eexists. split; [reflexivity|].
        apply head_In, filter_In in Hv. apply Hv.
      + right. exists u. split; [reflexivity|]. rewrite Hu.
        assert (In u (records_of (oid profile) (directory s))) as Hm
          by (rewrite Hrec; left; reflexivity).
        apply filter_In in Hm. apply Hm.
    - rewrite (verify_rejects _ Hrej). left. eauto. }
  unfold auth_openid_return, authenticate.
  destruct (run (verify profile) (directory s)) as [res d'] eqn:Hrun. cbn [fst snd] in Hcases.
  destruct Hcases as [(err & -> & Hu)|(user & -> & Hin)].
  - cbn. split; [discriminate|]. left. exists err. repeat split. exact Hu.
  - unfold login, regenerate, generate. cbn. split; [discriminate|]. right.
    exists user. split; [reflexivity|]. split; [reflexivity|]. split; [exact Hin|].
    apply lookup_insert_eq.
Qed.

(** X11: from the callback to the user endpoint.  On a well-formed table
    and while the store answers, the return route answers an accepted
    profile with the redirect to the dashboard, and GET /api/user
    presenting the session id of that redirect then answers 200 with
    [success: true] and a user who has the identity's name and email and
    is the record held for its subject id. *)
Theorem login_then_api_user profile cookie s :
  accepted profile → reachable (directory s) → well_formed (directory s) →
  ∃ sid user,
    (serve (auth_openid_return (Validated profile)) cookie s).1
      = Redirect (FrontendDashboard sid) ∧
    (serve api_user (Some sid)
       (serve (auth_openid_return (Validated profile)) cookie s).2).1
      = Respond 200 (UserJson true (row_id user) (name_of profile)
                              (email_of profile) (row_role user)) ∧
    records_of (oid profile)
      (directory (serve (auth_openid_return (Validated profile)) cookie s).2) = [user].
Proof.
  intros Hacc Hr Hwf. unfold serve at 1 3 4.
  destruct (load_session_fresh cookie s) as [Hd _].
  destruct (load_session cookie s) as [r s1]. cbn [snd] in Hd.
  rewrite <- Hd in Hr, Hwf.
  destruct (passport_session_frame r s1 Hr) as (r' & s2 & -> & Hu & Hni & Hc & Hr2 & _ & _).
  assert (Hwf2 : well_formed (directory s2)).
  { destruct Hwf as (W1 & W2 & W3). unfold well_formed, id_injective, ids_below, oid_injective.
    rewrite Hu, Hni. repeat split; assumption. }
  destruct (verify_success profile (directory s2) Hacc Hr2 Hwf2)
    as (user & Hres & Hrec & Hin & _ & He & Hn & Hr3 & Hc3 & _).
  pose proof (verify_well_formed profile (directory s2) Hwf2) as (Hid3 & _ & _).
  destruct (run (verify profile) (directory s2)) as [res d'] eqn:Hrun.
  cbn [fst snd] in *. subst res.
  rewrite (return_route_logs_in profile user d' r' s2 Hrun).
  destruct (logged_in_store user r' (with_directory d' s2)) as (sid & Hresp & Hst & Hdir).
  destruct (logged_in user r' (with_directory d' s2)) as [[resp r''] s3]. cbn [fst snd] in *.
  set (s4 := end_response r'' s3) in *. change (directory (with_directory d' s2)) with d' in Hdir.
  exists sid, user. split; [exact Hresp|]. rewrite Hdir. split; [|exact Hrec].
  assert (Hr4 : reachable (directory s4)) by (rewrite Hdir; exact Hr3).
  rewrite (serve_api_user _ _ Hr4), (validate_reachable _ _ Hr4), Hst.
  cbn [expires passport_user]. unfold now. rewrite Hdir. cbn [with_directory directory].
  replace (clock d' + maxAge <=? clock d') with false
    by (symmetry; apply Z.leb_gt; unfold maxAge; lia).
  unfold serializeUser. rewrite (findById_unique d' user Hid3 Hin), He, Hn. reflexivity.
Qed.

Lemma login_then_api_user_witness :
  ∃ sid user,
    (serve (auth_openid_return (Validated bob)) None alice_server).1
      = Redirect (FrontendDashboard sid) ∧
    (serve api_user (Some sid)
       (serve (auth_openid_return (Validated bob)) None alice_server).2).1
      = Respond 200 (UserJson true (row_id user) (JStr "UniEats User")
                              (JStr "bob@uni.edu") (row_role user)).
Proof.
  destruct (login_then_api_user bob None alice_server) as (sid & user & H1 & H2 & _).
  - split; reflexivity.
  - reflexivity.
  - split; [|split].
    + repeat constructor. simpl. intros H. inversion H.
    + intros r [<-|[]]. reflexivity.
    + repeat constructor. simpl. intros H. inversion H.
  - exists sid, user. split; [exact H1 | exact H2].
Defined.





(** X13: a request without a session of its own.  With no cookie, or a
    cookie naming no session of the store, GET /api/user is answered 401
    without any statement sent to the directory, also when the store is
    down, and a new session without user is saved under a newly generated
    id. *)
Theorem anonymous_request cookie s :
  (cookie = None ∨ ∃ sid, cookie = Some sid ∧ store s !! sid = None) →
  serve api_user cookie s
  = (Respond 401 (MessageJson false "Not authenticated"),
     mkServer (directory s)
              (<[next_sid s := mkSession (now s + maxAge) None]> (store s))
              (S (next_sid s))).
Proof.
  intros [->|(sid & -> & Hs)]; unfold serve, load_session; [|rewrite Hs]; reflexivity.
Qed.

Lemma anonymous_request_witness :
  (serve api_user (Some 3%nat) down_server).1
  = Respond 401 (MessageJson false "Not authenticated").
Proof.
  rewrite (anonymous_request (Some 3%nat) down_server); [reflexivity|].
  right. exists 3%nat. split; reflexivity.
Defined.

(** X14: a logout while the store is down.  When the session presented
    carries a user id and the lookup behind [deserializeUser] is rejected,
    GET /logout is answered 500 and the route is not run: the session stays
    in the store with its user id, its expiry renewed, and resolves to the
    user again once the store answers. *)
Theorem logout_during_outage sid sess i s rest :
  store s !! sid = Some sess → now s < expires sess → passport_user sess = Some i →
  outages (directory s) = true :: rest →
  (destroy sid s).1 = next_error DbUnreachable ∧
  store (destroy sid s).2 !! sid = Some (mkSession (now s + maxAge) (Some i)) ∧
  users (directory (destroy sid s).2) = users (directory s) ∧
  (rest = [] → validate sid (destroy sid s).2 = inr (findById i (directory s))).
Proof.
  intros Hs Hexp Hi Hout.
  unfold destroy, serve, load_session. rewrite Hs.
  replace (expires sess <=? now s) with false by (symmetry; apply Z.leb_gt; exact Hexp).
  unfold passport_session. cbn [req_session]. rewrite Hi.
  unfold deserializeUser. cbn -[maxAge]. unfold db_query. rewrite Hout. cbn -[maxAge].
  split; [reflexivity|]. split; [rewrite Hi; apply lookup_insert_eq|].
  split; [reflexivity|]. intros ->.
  rewrite validate_reachable by reflexivity. cbn -[maxAge].
  rewrite lookup_insert_eq. cbn -[maxAge]. rewrite Hi.
  replace (clock (directory s) + maxAge <=? clock (directory s)) with false
    by (symmetry; apply Z.leb_gt; unfold maxAge; lia).
  reflexivity.
Qed.

Lemma logout_during_outage_witness :
  (destroy 7%nat down_server).1 = next_error DbUnreachable ∧
  validate 7%nat (destroy 7%nat down_server).2 = inr (Some alice_row).
Proof.
  destruct (logout_during_outage 7%nat alice_session 1 down_server [])
    as (H1 & _ & _ & H4); try reflexivity.
  split; [exact H1 | exact (H4 eq_refl)].
Defined.

(** X15: a logout ends one session only.  While the store answers and the
    session ids of the store are below the next id to be generated, GET
    /logout leaves every session other than the one presented in the
    store, as it was. *)
Theorem logout_keeps_other_sessions sid other s :
  reachable (directory s) → sids_below s → other ≠ sid →
  store (destroy sid s).2 !! other = store s !! other.
Proof.
  intros Hr Hlt Hne.
  assert (Hfresh : ∀ n, (next_sid s ≤ n)%nat → store s !! n = None).
  { intros n Hn. destruct (store s !! n) as [x|] eqn:E; [|reflexivity].
    specialize (Hlt n x E). lia. }
  assert (Hgo : ∀ (m : gmap nat session) x n,
    m !! other = store s !! other → (next_sid s ≤ n)%nat →
    delete n (<[n := x]> m) !! other = store s !! other).
  { intros m x n Hm Hn. destruct (decide (other = n)) as [->|Hd].
    - rewrite lookup_delete_eq. symmetry. now apply Hfresh.
    - rewrite lookup_delete_ne, lookup_insert_ne by congruence. exact Hm. }
  assert (Hdel : ∀ (m : gmap nat session) n,
    m !! other = store s !! other → (next_sid s ≤ n)%nat →
    delete n m !! other = store s !! other).
  { intros m n Hm Hn. destruct (decide (other = n)) as [->|Hd].
    - rewrite lookup_delete_eq. symmetry. now apply Hfresh.
    - rewrite lookup_delete_ne by congruence. exact Hm. }
  assert (Hsid : ∀ (m : gmap nat session),
    m !! other = store s !! other → delete sid m !! other = store s !! other).
  { intros m Hm. rewrite lookup_delete_ne by congruence. exact Hm. }
  assert (Hins : ∀ (m : gmap nat session) x,
    m !! other = store s !! other → <[sid := x]> m !! other = store s !! other).
  { intros m x Hm. rewrite lookup_insert_ne by congruence. exact Hm. }
  unfold destroy, serve, load_session.
  destruct (store s !! sid) as [sess|] eqn:Hs.
  - destruct (expires sess <=? now s).
    + cbn. apply Hdel; [|lia]. apply Hgo; [|lia]. now apply Hsid.
    + unfold passport_session. cbn [req_session].
      destruct (passport_user sess) as [i|].
      * rewrite (deserialize_reachable _ _ Hr).
        destruct (findById i (directory s)); cbn;
          (apply Hdel; [|lia]); apply Hsid, Hins; reflexivity.
      * cbn. apply Hdel; [|lia]. apply Hsid, Hins. reflexivity.
  - cbn. apply Hdel; [|lia]. apply Hgo; [|lia]. reflexivity.
Qed.

Lemma logout_keeps_other_sessions_witness :
  store two_sessions !! 3%nat = Some (mkSession 95000 (Some 1)) ∧
  store (destroy 7%nat two_sessions).2 !! 3%nat = Some (mkSession 95000 (Some 1)) ∧
  store (destroy 7%nat two_sessions).2 !! 7%nat = None.
Proof.
  split; [reflexivity|]. split; [|reflexivity].
  transitivity (store two_sessions !! 3%nat); [|reflexivity].
  apply (logout_keeps_other_sessions 7%nat 3%nat two_sessions).
  - reflexivity.
  - intros sid sess H. unfold two_sessions in H. cbn [store] in H.
    apply lookup_insert_Some in H as [[<- _]|[_ H]]; [cbn; lia|].
    apply lookup_singleton_Some in H as [<- _]. cbn. lia.
  - lia.
Defined.

(** X16: sessions last 24 hours.  While the store answers, a session
    established for a user of the directory and not used in between
    resolves to a user with the same id when presented less than
    86 400 000 milliseconds later; presented 86 400 000 milliseconds later
    or more it resolves to no user, and GET /api/user presenting it is
    answered 401. *)
Theorem session_expires user cookie s dt :
  reachable (directory s) →
  ∃ sid,
    (establish user cookie s).1 = Redirect (FrontendDashboard sid) ∧
    (In user (users (directory s)) → dt < 86400000 →
     ∃ found, validate sid (later dt (establish user cookie s).2) = inr (Some found) ∧
              row_id found = row_id user) ∧
    (86400000 ≤ dt →
     validate sid (later dt (establish user cookie s).2) = inr None ∧
     (serve api_user (Some sid) (later dt (establish user cookie s).2)).1
       = Respond 401 (MessageJson false "Not authenticated")).
Proof.
  intros Hr.
  destruct (establish_store user cookie s Hr) as (sid & Hresp & Hst & Hus & Hck & Hr1).
  exists sid. split; [exact Hresp|].
  set (s1 := (establish user cookie s).2) in *.
  assert (Hr' : reachable (directory (later dt s1))) by exact Hr1.
  assert (Hval : validate sid (later dt s1)
                 = inr (if now s + 86400000 <=? clock (directory s) + dt then None
                        else findById (row_id user) (directory s))).
  { rewrite (validate_reachable _ _ Hr').
    change (store (later dt s1)) with (store s1). rewrite Hst.
    cbn [expires passport_user].
    change (now (later dt s1)) with (clock (directory s1) + dt). rewrite Hck.
    change maxAge with 86400000.
    change (findById (serializeUser user) (directory (later dt s1)))
      with (head (List.filter (has_id (row_id user)) (users (directory s1)))).
    rewrite Hus. reflexivity. }
  split.
  - intros Hin Hdt. destruct (findById_In user (directory s) Hin) as (found & Hf & Hid).
    exists found. split; [|exact Hid]. rewrite Hval, Hf.
    replace (now s + 86400000 <=? clock (directory s) + dt) with false
      by (symmetry; apply Z.leb_gt; unfold now; lia).
    reflexivity.
  - intros Hdt.
    assert (Hv : validate sid (later dt s1) = inr None).
    { rewrite Hval.
      replace (now s + 86400000 <=? clock (directory s) + dt) with true
        by (symmetry; apply Z.leb_le; unfold now; lia).
      reflexivity. }
    split; [exact Hv|]. rewrite (serve_api_user _ _ Hr'), Hv. reflexivity.
Qed.

Lemma session_expires_witness :
  ∃ sid,
    (establish alice_row None alice_server).1 = Redirect (FrontendDashboard sid) ∧
    (∃ found, validate sid (later 86399999 (establish alice_row None alice_server).2)
              = inr (Some found) ∧ row_id found = 1) ∧
    validate sid (later 86400000 (establish alice_row None alice_server).2) = inr None.
Proof.
  destruct (session_expires alice_row None alice_server 86399999) as (sid & H1 & H2 & _);
    [reflexivity|].
  destruct (session_expires alice_row None alice_server 86400000) as (sid' & H1' & _ & H3);
    [reflexivity|].
  assert (sid' = sid) as -> by congruence.
  exists sid. split; [exact H1|]. split.
  - apply H2; [left; reflexivity | lia].
  - apply H3. lia.
Defined.

(* ===================================================================== *)
(** ** Two first-time resolutions for different subjects *)
(* ===================================================================== *)

Lemma has_oid_other o o' r :
  o' ≠ o → row_azure_oid r = o → has_oid o' r = false.
Proof.
  intros Hne Hr. unfold has_oid. destruct (sql_eq (row_azure_oid r) o') eqn:E; [|reflexivity].
  apply sql_eq_true in E. congruence.
Qed.

Lemma first_phase_frame profile d d' x :
  records_of (oid profile) d' = records_of (oid profile) d →
  first_phase profile d x → first_phase profile d' x.
Proof.
  intros Heq Hp. destruct Hp; econstructor; eauto; congruence.
Qed.

(** One turn of a first-time run: it moves to its next phase and leaves
    the records of every other subject id alone. *)
Lemma step_first_phase profile d x :
  accepted profile → reachable d → first_phase profile d x →
  reachable (step x d).2 ∧
  first_phase profile (step x d).2 (step x d).1 ∧
  (∀ o', o' ≠ oid profile → records_of o' (step x d).2 = records_of o' d).
Proof.
  intros Hacc Hr Hp. pose proof Hacc as [Ho He].
  pose proof (name_of_truthy profile) as Hname.
  destruct Hp as [Hnone|k Hk Hnone|user Hone He' Hn'].
  - destruct (verify_tree profile Hacc) as (k1 & -> & _ & (k2 & Hk2 & Hf2) & _).
    cbn [step]. rewrite (db_query_reachable _ _ Hr). cbn [apply_query fst snd].
    fold (records_of (oid profile) d). rewrite Hnone, Hk2.
    split; [exact Hr|]. split; [|reflexivity].
    apply first_insert; [exact Hf2 | exact Hnone].
  - destruct Hk as [_ Kok].
    cbn [step]. rewrite (db_query_reachable _ _ Hr). cbn [apply_query].
    rewrite (filter_nil_existsb _ _ Hnone), andb_false_r. cbn [fst snd].
    set (r := new_row d _ _ _). rewrite Kok. cbn [head].
    assert (Hro : row_azure_oid r = oid profile)
      by (unfold r; cbn; now apply pg_param_truthy).
    split; [exact Hr|]. split.
    + apply first_done.
      * unfold records_of in *. cbn [users]. rewrite List.filter_app, Hnone. cbn -[r].
        replace (has_oid (oid profile) r) with true; [reflexivity|].
        symmetry. unfold has_oid. rewrite Hro.
        destruct (truthy_str _ Ho) as [s ->]. apply sql_eq_refl.
      * unfold r. cbn. now apply pg_param_truthy.
      * unfold r. cbn. now apply pg_param_truthy.
    + intros o' Hne. unfold records_of. cbn [users]. rewrite List.filter_app. cbn -[r].
      rewrite (has_oid_other (oid profile) o' r Hne Hro). apply app_nil_r.
  - cbn. split; [exact Hr|]. split; [now apply first_done | reflexivity].
Qed.

(** A first-time run left alone succeeds with the record it creates. *)
Lemma run_first_phase profile d x :
  accepted profile → reachable d → first_phase profile d x →
  reachable (run x d).2 ∧
  (∃ user, (run x d).1 = inr (done None (Some user)) ∧
           records_of (oid profile) (run x d).2 = [user] ∧
           row_email user = email_of profile ∧ row_name user = name_of profile) ∧
  (∀ o', o' ≠ oid profile → records_of o' (run x d).2 = records_of o' d).
Proof.
  intros Hacc Hr Hp.
  assert (Hdone : ∀ d0 y, reachable d0 → first_phase profile d0 y →
    (∃ r, y = Ret r) →
    reachable (run y d0).2 ∧
    (∃ user, (run y d0).1 = inr (done None (Some user)) ∧
             records_of (oid profile) (run y d0).2 = [user] ∧
             row_email user = email_of profile ∧ row_name user = name_of profile) ∧
    (∀ o', o' ≠ oid profile → records_of o' (run y d0).2 = records_of o' d0)).
  { intros d0 y Hr0 Hp0 [r ->]. cbn. split; [exact Hr0|]. split; [|reflexivity].
    inversion Hp0 as [Hnone Hv|k Hk Hnone|user Hone He Hn]; subst.
    - exfalso. destruct (verify_tree profile Hacc) as (k1 & Hv' & _). congruence.
    - exists user. repeat split; assumption. }
  assert (Hins : ∀ d0 y, reachable d0 → first_phase profile d0 y →
    (∃ k, y = Await (InsertUser (oid profile) (email_of profile) (name_of profile)) k) →
    reachable (run y d0).2 ∧
    (∃ user, (run y d0).1 = inr (done None (Some user)) ∧
             records_of (oid profile) (run y d0).2 = [user] ∧
             row_email user = email_of profile ∧ row_name user = name_of profile) ∧
    (∀ o', o' ≠ oid profile → records_of o' (run y d0).2 = records_of o' d0)).
  { intros d0 y Hr0 Hp0 [k ->].
    destruct (step_first_phase profile d0 _ Hacc Hr0 Hp0) as (Hr1 & Hp1 & Hf1).
    rewrite run_step.
    destruct (Hdone _ _ Hr1 Hp1) as (A & B & C).
    { inversion Hp0 as [Hnone Hv|k' Hk' Hnone|]; subst.
      - exfalso. destruct (verify_tree profile Hacc) as (k1 & Hv' & _). congruence.
      - destruct Hk' as [Kerr Kok].
        cbn [step]. destruct (db_query _ d0) as [[e|rows] d1]; cbn [fst].
        + rewrite Kerr. eauto.
        + rewrite Kok. eauto. }
    split; [exact A|]. split; [exact B|].
    intros o' Hne. rewrite (C o' Hne). now apply Hf1. }
  inversion Hp as [Hnone Hv|k Hk Hnone|user Hone He Hn]; subst.
  - destruct (step_first_phase profile d _ Hacc Hr Hp) as (Hr1 & Hp1 & Hf1).
    rewrite run_step.
    destruct (Hins _ _ Hr1 Hp1) as (A & B & C).
    { destruct (verify_tree profile Hacc) as (k1 & Hv' & _ & (k2 & Hk2 & _) & _).
      rewrite Hv'. cbn [step]. rewrite (db_query_reachable _ _ Hr). cbn [apply_query fst].
      fold (records_of (oid profile) d). rewrite Hnone, Hk2. eauto. }
    split; [exact A|]. split; [exact B|].
    intros o' Hne. rewrite (C o' Hne). now apply Hf1.
  - apply Hins; eauto.
  - apply Hdone; eauto.
Qed.

Lemma interleave_first_phase profile1 profile2 sched :
  accepted profile1 → accepted profile2 → oid profile1 ≠ oid profile2 →
  ∀ d x y,
    reachable d → first_phase profile1 d x → first_phase profile2 d y →
    ∃ user1 user2,
      (interleave sched x y d).1
        = (inr (done None (Some user1)), inr (done None (Some user2))) ∧
      records_of (oid profile1) (interleave sched x y d).2 = [user1] ∧
      records_of (oid profile2) (interleave sched x y d).2 = [user2] ∧
      row_email user1 = email_of profile1 ∧ row_name user1 = name_of profile1 ∧
      row_email user2 = email_of profile2 ∧ row_name user2 = name_of profile2.
Proof.
  intros Hacc1 Hacc2 Hne.
  induction sched as [|b sched IH]; intros d x y Hr Hx Hy.
  - cbn [interleave].
    destruct (run_first_phase profile1 d x Hacc1 Hr Hx)
      as (Hr1 & (u1 & Hres1 & Hrec1 & He1 & Hn1) & Hf1).
    destruct (run x d) as [r1 d1]. cbn [fst snd] in *. subst r1.
    assert (Hy1 : first_phase profile2 d1 y).
    { apply (first_phase_frame _ d); [|exact Hy]. apply Hf1. congruence. }
    destruct (run_first_phase profile2 d1 y Hacc2 Hr1 Hy1)
      as (Hr2 & (u2 & Hres2 & Hrec2 & He2 & Hn2) & Hf2).
    destruct (run y d1) as [r2 d2]. cbn [fst snd] in *. subst r2.
    exists u1, u2. split; [reflexivity|].
    split; [rewrite (Hf2 _ Hne); exact Hrec1|]. repeat split; assumption.
  - destruct b; cbn [interleave].
    + destruct (step_first_phase profile1 d x Hacc1 Hr Hx) as (Hr1 & Hx1 & Hf1).
      destruct (step x d) as [x1 d1]. cbn [fst snd] in *.
      apply IH; [assumption..|].
      apply (first_phase_frame _ d); [|exact Hy]. apply Hf1. congruence.
    + destruct (step_first_phase profile2 d y Hacc2 Hr Hy) as (Hr1 & Hy1 & Hf1).
      destruct (step y d) as [y1 d1]. cbn [fst snd] in *.
      apply IH; [assumption| |assumption].
      apply (first_phase_frame _ d); [|exact Hx]. now apply Hf1.
Qed.

(** X17: two first-time resolutions for different subjects in flight.
    While the store answers, whatever the order in which their statements
    reach it (and with or without the uniqueness constraint), both runs
    succeed: each returns the record it created, with its identity's email
    and name, and that record is the one held for its subject id. *)
Theorem concurrent_distinct_resolves profile1 profile2 sched d :
  accepted profile1 → accepted profile2 → oid profile1 ≠ oid profile2 →
  reachable d →
  records_of (oid profile1) d = [] → records_of (oid profile2) d = [] →
  ∃ user1 user2,
    (interleave sched (verify profile1) (verify profile2) d).1
      = (inr (done None (Some user1)), inr (done None (Some user2))) ∧
    records_of (oid profile1) (interleave sched (verify profile1) (verify profile2) d).2
      = [user1] ∧
    records_of (oid profile2) (interleave sched (verify profile1) (verify profile2) d).2
      = [user2] ∧
    row_email user1 = email_of profile1 ∧ row_name user1 = name_of profile1 ∧
    row_email user2 = email_of profile2 ∧ row_name user2 = name_of profile2.
Proof.
  intros Hacc1 Hacc2 Hne Hr Hn1 Hn2.
  apply (interleave_first_phase profile1 profile2 sched Hacc1 Hacc2 Hne d);
    [exact Hr | now apply first_start | now apply first_start].
Qed.

Lemma concurrent_distinct_resolves_witness :
  ∃ user1 user2,
    (interleave [true; false; false] (verify alice) (verify bob) empty_db).1
      = (inr (done None (Some user1)), inr (done None (Some user2))) ∧
    row_id user1 = 2 ∧ row_id user2 = 1.
Proof.
  destruct (concurrent_distinct_resolves alice bob [true; false; false] empty_db)
    as (u1 & u2 & H & _); try reflexivity.
  - split; reflexivity.
  - split; reflexivity.
  - discriminate.
  - exists u1, u2. split; [exact H|].
    vm_compute in H. injection H as <- <-. split; reflexivity.
Defined.

(* ===================================================================== *)
(** ** Records stay complete; logging out again *)
(* ===================================================================== *)

Lemma verify_complete profile d :
  complete d → complete (run (verify profile) d).2.
Proof.
  intros Hc. pose proof (name_of_truthy profile) as Hn. unfold complete in *.
  destruct (verify_effect profile d)
    as [H|[([Ho He] & _ & r & H & Hr)|([Ho He] & u & rest & _ & H)]]; rewrite H.
  - exact Hc.
  - intros x [Hx|[<-|[]]]%in_app_iff; [now apply Hc|].
    rewrite Hr. cbn. repeat split; assumption.
  - intros x (x0 & <- & Hx0)%in_map_iff. specialize (Hc x0 Hx0).
    destruct (has_id (row_id u) x0); [|exact Hc].
    cbn. rewrite !pg_param_truthy by assumption. destruct Hc as (H1 & _ & _).
    repeat split; assumption.
Qed.

(** X18: records are complete for good.  From a table in which every
    record has a usable (non-empty) subject id, email and name (an empty
    table is one), any number of runs of the callback, for any profiles, at
    any times and under any outages, leads to such a table again: the
    callback never stores a record without one of them. *)
Theorem directory_stays_complete calls d :
  complete d → complete (resolve_all calls d).
Proof.
  unfold resolve_all. revert d.
  induction calls as [|[dt profile] calls IH]; intros d Hd; cbn [fold_left]; [exact Hd|].
  apply IH. apply verify_complete. exact Hd.
Qed.

Lemma directory_stays_complete_witness :
  complete (resolve_all [(0, bob); (5, no_oid); (60, alice_renamed)] alice_db).
Proof.
  apply (directory_stays_complete _ alice_db).
  intros r [<-|[]]. repeat split; reflexivity.
Defined.

(** The directory after the logout route, while the store answers. *)
Lemma destroy_directory sid s :
  reachable (directory s) →
  reachable (directory (destroy sid s).2) ∧
  users (directory (destroy sid s).2) = users (directory s).
Proof.
  intros Hr. unfold destroy, serve, load_session.
  destruct (store s !! sid) as [sess|].
  - destruct (expires sess <=? now s); [cbn; split; [exact Hr | reflexivity]|].
    unfold passport_session. cbn [req_session].
    destruct (passport_user sess) as [i|]; [|cbn; split; [exact Hr | reflexivity]].
    rewrite (deserialize_reachable _ _ Hr).
    destruct (findById i (directory s)); cbn; split; reflexivity.
  - cbn. split; [exact Hr | reflexivity].
Qed.

(** X19: logging out again.  While the store answers, GET /logout
    presenting a session id that was already logged out is answered with
    the same redirect to the frontend, not with an error; the session id
    stays out of the store and resolves to no user; and no logout changes
    a record of the table. *)
Theorem logout_again sid s :
  reachable (directory s) →
  (destroy sid (destroy sid s).2).1 = Redirect Frontend ∧
  store (destroy sid (destroy sid s).2).2 !! sid = None ∧
  validate sid (destroy sid (destroy sid s).2).2 = inr None ∧
  users (directory (destroy sid (destroy sid s).2).2) = users (directory s).
Proof.
  intros Hr.
  destruct (destroy_directory sid s Hr) as [Hr1 Hu1].
  destruct (destroy_store sid _ Hr1) as [H1 H2].
  destruct (destroy_directory sid _ Hr1) as [_ Hu2].
  split; [exact H1|]. split; [exact H2|]. split; [now apply validate_absent|].
  rewrite Hu2. exact Hu1.
Qed.

Lemma logout_again_witness :
  (destroy 7%nat (destroy 7%nat alice_server).2).1 = Redirect Frontend ∧
  validate 7%nat (destroy 7%nat (destroy 7%nat alice_server).2).2 = inr None.
Proof.
  destruct (logout_again 7%nat alice_server) as (H1 & _ & H3 & _).
  - reflexivity.
  - split; [exact H1 | exact H3].
Defined.
